(** * Data collection notebooks for the Sudan disease-forecasting project

  A shallow embedding of the functions defined in
  [data_collection/OpenWeatherMap.ipynb] and
  [data_collection/OpenStreetMap.ipynb], and the properties that the
  specification states about them.

  Conventions.
  - Python floats (coordinates) are rationals [Q]; [float] adds the
    not-a-number value that shapely reports for an empty geometry.
  - A Python call that can raise returns an [Outcome].
  - Code that talks to the network or prints runs in [IO]: it threads the
    chronological list of [Event]s of the run.
  - The remote endpoints and the shapely predicates [is_valid] and
    [centroid] are parameters of the sections that use them; a centroid is
    a shapely point, which can be empty.
  - A variable of the notebook that a top-level loop fills is part of the
    state of the loop: it keeps what was stored in it when the loop
    raises. *)

From Stdlib Require Import ZArith QArith Qminmax List String Bool Lia.
From Equations Require Import Equations.
Import ListNotations.

Local Open Scope Z_scope.

Set Warnings "-register-all".

(** ** Python values *)

Module Py.

(** The exceptions that the modelled code can raise. *)
Inductive Exn : Type :=
| ValueError
| KeyError
| TypeError
| AttributeError
| IndexError
| OverflowError
| JSONDecodeError
| GEOSException
| HTTPError (status : Z).

Inductive Outcome (A : Type) : Type :=
| Return (a : A)
| Raise (e : Exn).
Arguments Return {A} a.
Arguments Raise {A} e.

Definition obind {A B} (o : Outcome A) (k : A -> Outcome B) : Outcome B :=
  match o with
  | Return a => k a
  | Raise e => Raise e
  end.

(** What [json.loads] produces.  [JNull] is also Python's [None]. *)
Inductive JSON : Type :=
| JNull
| JBool (b : bool)
| JNum (q : Q)
| JStr (s : string)
| JArr (items : list JSON)
| JObj (fields : list (string * JSON)).

(** Nested lists of coordinate tuples, as [convert_coordinates_format]
    builds them. *)
Inductive PyVal : Type :=
| PTuple (x y : Q)
| PList (items : list PyVal).

Definition py_len (v : PyVal) : nat :=
  match v with
  | PTuple _ _ => 2
  | PList items => List.length items
  end.

(** [range(start, stop, step)], with CPython's length formula. *)
Definition range_len (start stop step : Z) : Z :=
  if (0 <? step) && (start <? stop) then (stop - start - 1) / step + 1
  else if (step <? 0) && (stop <? start) then (start - stop - 1) / (- step) + 1
  else 0.

Definition range (start stop step : Z) : Outcome (list Z) :=
  if step =? 0 then Raise ValueError
  else Return (map (fun j => start + Z.of_nat j * step)
                   (seq 0 (Z.to_nat (range_len start stop step)))).

(** [l[i:j]] for [0 <= i]. *)
Definition slice {A} (l : list A) (i j : Z) : list A :=
  firstn (Z.to_nat (j - i)) (skipn (Z.to_nat i) l).

End Py.
Import Py.

(** ** Geometries (shapely) *)

Module Geo.

(** A coordinate is [(x, y)]: longitude first, latitude second. *)
Definition Coord : Type := (Q * Q)%type.

Record polygon : Type := mkPolygon {
  exterior : list Coord;
  interiors : list (list Coord)
}.

Inductive Geometry : Type :=
| Point (c : Coord)
| LineString (cs : list Coord)
| LinearRing (cs : list Coord)
| Polygon (p : polygon)
| MultiPoint (cs : list Coord)
| MultiLineString (lines : list (list Coord))
| MultiPolygon (ps : list polygon)
| GeometryCollection (gs : list Geometry).

Definition geom_type (g : Geometry) : string :=
  match g with
  | Point _ => "Point"
  | LineString _ => "LineString"
  | LinearRing _ => "LinearRing"
  | Polygon _ => "Polygon"
  | MultiPoint _ => "MultiPoint"
  | MultiLineString _ => "MultiLineString"
  | MultiPolygon _ => "MultiPolygon"
  | GeometryCollection _ => "GeometryCollection"
  end.

(** [geometry.geoms] of a multi-polygon. *)
Definition geoms (g : Geometry) : list polygon :=
  match g with
  | MultiPolygon ps => ps
  | _ => []
  end.

(** [geometry.exterior.coords] of a polygon. *)
Definition exterior_coords (g : Geometry) : list Coord :=
  match g with
  | Polygon p => exterior p
  | _ => []
  end.

(** The coordinates that span the envelope of a geometry (for a polygon,
    its shell). *)
Fixpoint envelope_coords (g : Geometry) : list Coord :=
  match g with
  | Point c => [c]
  | LineString cs => cs
  | LinearRing cs => cs
  | Polygon p => exterior p
  | MultiPoint cs => cs
  | MultiLineString lines => List.concat lines
  | MultiPolygon ps => flat_map exterior ps
  | GeometryCollection gs => flat_map envelope_coords gs
  end.

(** A float is a rational or not-a-number. *)
Definition float : Type := option Q.
Definition nan : float := None.

Definition minimum (q : Q) (qs : list Q) : Q := fold_left Qmin qs q.
Definition maximum (q : Q) (qs : list Q) : Q := fold_left Qmax qs q.

(** [geometry.bounds]: [(minx, miny, maxx, maxy)], all not-a-number for a
    geometry without coordinates. *)
Definition bounds (g : Geometry) : float * float * float * float :=
  match envelope_coords g with
  | [] => (nan, nan, nan, nan)
  | c :: cs =>
      (Some (minimum (fst c) (map fst cs)),
       Some (minimum (snd c) (map snd cs)),
       Some (maximum (fst c) (map fst cs)),
       Some (maximum (snd c) (map snd cs)))
  end.

End Geo.
Import Geo.

(** ** Boundary loader (both notebooks) *)

(** A row of the boundary table read from the GADM file. *)
Record BoundaryRow : Type := mkBoundaryRow {
  GID : string;
  NAME : string;
  geometry : Geometry
}.

Definition coords_list (cs : list Coord) : PyVal :=
  PList (map (fun c => PTuple (fst c) (snd c)) cs).

Definition convert_coordinates_format (geometry : Geometry) : PyVal :=
  if (geom_type geometry =? "MultiPolygon")%string then
    PList [ PList (map (fun polygon => coords_list (exterior polygon))
                       (geoms geometry)) ]
  else if (geom_type geometry =? "Polygon")%string then
    PList [ coords_list (exterior_coords geometry) ]
  else
    PList [].

Definition get_bbox_from_multipolygon (multipolygon : Geometry) : list float :=
  let '(b0, b1, b2, b3) := bounds multipolygon in
  [b1; b0; b3; b2].

(** [point.x] and [point.y] of a shapely point, [None] being
    [POINT EMPTY]: GEOS refuses to read a coordinate of an empty point. *)
Definition point_x (point : option Coord) : Outcome Q :=
  match point with
  | Some c => Return (fst c)
  | None => Raise GEOSException
  end.

Definition point_y (point : option Coord) : Outcome Q :=
  match point with
  | Some c => Return (snd c)
  | None => Raise GEOSException
  end.

Section Centroids.

(** shapely's [is_valid] and [centroid]; the centroid of a geometry is a
    point, [POINT EMPTY] when the geometry is empty. *)
Variable is_valid : Geometry -> bool.
Variable centroid : Geometry -> option Coord.

Fixpoint centroids_loop (rows : list BoundaryRow) (centroids : list (Q * Q))
  : Outcome (list (Q * Q)) :=
  match rows with
  | [] => Return centroids
  | row :: rest =>
      let geometry := geometry row in
      if is_valid geometry then
        let centroid := centroid geometry in
        obind (point_y centroid) (fun y =>
        obind (point_x centroid) (fun x =>
        centroids_loop rest (centroids ++ [(y, x)])))
      else
        centroids_loop rest centroids
  end.

Definition get_centroid_coordinates (gdf : list BoundaryRow)
  : Outcome (list (Q * Q)) :=
  centroids_loop gdf [].

End Centroids.

(** ** Dates (Python's [datetime]) *)

Module Dates.

(** A date string ['YYYY-MM-DD'], field by field. *)
Record Date : Type := mkDate { year : Z; month : Z; day : Z }.

Definition MAXYEAR : Z := 9999.
Definition MAXORDINAL : Z := 3652059.

Definition is_leap (y : Z) : bool :=
  (y mod 4 =? 0) && (negb (y mod 100 =? 0) || (y mod 400 =? 0)).

Definition DAYS_IN_MONTH : list Z :=
  [31; 28; 31; 30; 31; 30; 31; 31; 30; 31; 30; 31].

Definition DAYS_BEFORE_MONTH : list Z :=
  [0; 31; 59; 90; 120; 151; 181; 212; 243; 273; 304; 334].

Definition days_in_month (y m : Z) : Z :=
  if (m =? 2) && is_leap y then 29
  else nth (Z.to_nat (m - 1)) DAYS_IN_MONTH 0.

Definition days_before_year (y : Z) : Z :=
  let y := y - 1 in
  y * 365 + y / 4 - y / 100 + y / 400.

Definition days_before_month (y m : Z) : Z :=
  nth (Z.to_nat (m - 1)) DAYS_BEFORE_MONTH 0
  + (if (2 <? m) && is_leap y then 1 else 0).

Definition ymd2ord (y m d : Z) : Z :=
  days_before_year y + days_before_month y m + d.

Definition ord2ymd (n : Z) : Date :=
  let n := n - 1 in
  let n400 := n / 146097 in
  let n := n mod 146097 in
  let y := n400 * 400 + 1 in
  let n100 := n / 36524 in
  let n := n mod 36524 in
  let n4 := n / 1461 in
  let n := n mod 1461 in
  let n1 := n / 365 in
  let n := n mod 365 in
  let y := y + n100 * 100 + n4 * 4 + n1 in
  if (n1 =? 4) || (n100 =? 4) then mkDate (y - 1) 12 31
  else
    let leapyear := (n1 =? 3) && (negb (n4 =? 24) || (n100 =? 3)) in
    let m := Z.shiftr (n + 50) 5 in
    let preceding :=
      nth (Z.to_nat (m - 1)) DAYS_BEFORE_MONTH 0
      + (if (2 <? m) && leapyear then 1 else 0) in
    if n <? preceding then
      let m := m - 1 in
      let preceding :=
        preceding - (nth (Z.to_nat (m - 1)) DAYS_IN_MONTH 0
                     + (if (m =? 2) && leapyear then 1 else 0)) in
      mkDate y m (n - preceding + 1)
    else mkDate y m (n - preceding + 1).

(** A [datetime] at midnight is its proleptic Gregorian ordinal.
    [strptime s '%Y-%m-%d'] rejects what is not a calendar date. *)
Definition strptime (s : Date) : Outcome Z :=
  if (1 <=? year s) && (year s <=? MAXYEAR)
     && (1 <=? month s) && (month s <=? 12)
     && (1 <=? day s) && (day s <=? days_in_month (year s) (month s))
  then Return (ymd2ord (year s) (month s) (day s))
  else Raise ValueError.

Definition strftime (d : Z) : Date := ord2ymd d.

(** [d + timedelta(days=n)]: outside years 1..9999 the sum overflows. *)
Definition add_days (d n : Z) : Outcome Z :=
  if (1 <=? d + n) && (d + n <=? MAXORDINAL) then Return (d + n)
  else Raise OverflowError.

End Dates.
Import Dates.

(** ** The network and the console *)

Module Net.

(** An HTTP response: its status and its body, [None] when the body is not
    JSON. *)
Record Response : Type := mkResponse {
  status_code : Z;
  body : option JSON
}.

(** [response.json()] *)
Definition json (response : Response) : Outcome JSON :=
  match body response with
  | Some j => Return j
  | None => Raise JSONDecodeError
  end.

(** [response.raise_for_status()]: only client and server error statuses
    raise. *)
Definition raise_for_status (response : Response) : Outcome unit :=
  if (400 <=? status_code response) && (status_code response <? 600)
  then Raise (HTTPError (status_code response))
  else Return tt.

Fixpoint assoc (key : string) (fields : list (string * JSON)) : option JSON :=
  match fields with
  | [] => None
  | (k, v) :: rest => if (k =? key)%string then Some v else assoc key rest
  end.

(** [d.get(key, default)] *)
Definition dict_get (d : JSON) (key : string) (default : JSON) : Outcome JSON :=
  match d with
  | JObj fields =>
      Return (match assoc key fields with Some v => v | None => default end)
  | _ => Raise AttributeError
  end.

(** [d[key]] for a string key. *)
Definition getitem (d : JSON) (key : string) : Outcome JSON :=
  match d with
  | JObj fields =>
      match assoc key fields with Some v => Return v | None => Raise KeyError end
  | _ => Raise TypeError
  end.

(** [for x in v] *)
Definition iter (v : JSON) : Outcome (list JSON) :=
  match v with
  | JArr items => Return items
  | JObj fields => Return (map (fun kv => JStr (fst kv)) fields)
  | JStr s =>
      Return (map (fun c => JStr (String c EmptyString)) (list_ascii_of_string s))
  | _ => Raise TypeError
  end.

Record WeatherParams : Type := mkWeatherParams {
  lat : Q;
  lon : Q;
  date : Date;
  tz : string;
  appid : string;
  units : string
}.

(** An Overpass-QL query, by what it asks for. *)
Inductive OverpassQuery : Type :=
| NodesQuery (chunk : list Z)
| BBoxQuery (south west north east : float).

Inductive Request : Type :=
| GetWeather (params : WeatherParams)
| GetOverpass (query : OverpassQuery).

(** What the notebooks print. *)
Inductive Message : Type :=
| ErrorFetching (lat lon : Q) (date_str : Date) (error : JSON)
| QueryingNodes (chunk : list Z)
| QueryText (query : OverpassQuery)
| FailedNodes (chunk : list Z) (status : Z).

Inductive Event : Type :=
| EvGet (request : Request)
| EvPrint (message : Message)
| EvSleep (seconds : Z).

(** A computation that may add events to the run and may raise. *)
Definition IO (A : Type) : Type := list Event -> Outcome A * list Event.

Definition ret {A} (a : A) : IO A := fun log => (Return a, log).

Definition bind {A B} (c : IO A) (k : A -> IO B) : IO B :=
  fun log =>
    match c log with
    | (Return a, log') => k a log'
    | (Raise e, log') => (Raise e, log')
    end.

Definition lift {A} (o : Outcome A) : IO A := fun log => (o, log).

Definition emit (e : Event) : IO unit := fun log => (Return tt, log ++ [e]).

Definition print (m : Message) : IO unit := emit (EvPrint m).

Definition sleep (seconds : Z) : IO unit := emit (EvSleep seconds).

(** The requests of a run, in order. *)
Definition requests (log : list Event) : list Request :=
  flat_map (fun e => match e with EvGet r => [r] | _ => [] end) log.

Definition printed (log : list Event) : list Message :=
  flat_map (fun e => match e with EvPrint m => [m] | _ => [] end) log.

End Net.
Import Net.

Declare Scope io_scope.
Delimit Scope io_scope with io.
Notation "x <- c ;; k" := (bind c (fun x => k))
  (at level 61, c at next level, right associativity) : io_scope.
Notation "c ;;; k" := (bind c (fun _ => k))
  (at level 61, right associativity) : io_scope.

(** ** Weather fetcher (OpenWeatherMap.ipynb) *)

(** A row of the boundary table once the loader has added its two derived
    columns; [centroid_coordinates] is [(latitude, longitude)]. *)
Record RegionRow : Type := mkRegionRow {
  boundary : BoundaryRow;
  coordinates : PyVal;
  centroid_coordinates : Q * Q
}.

(** The dict that [get_daily_weather] returns: it has either a ['data'] or
    an ['error'] entry. *)
Inductive WeatherData : Type :=
| WithData (latitude longitude : Q) (date : Date) (data : JSON)
| WithError (latitude longitude : Q) (date : Date) (error : JSON).

(** A row of the weather table. *)
Record WeatherRecord : Type := mkWeatherRecord {
  latitude : Q;
  longitude : Q;
  timezone : string;
  date : Date;
  data : JSON
}.

Definition inspect {A} (a : A) : {b : A | a = b} := exist _ a eq_refl.

Section Weather.

Variable API_KEY : string.

(** The answers of the day-summary endpoint. *)
Variable weather_api : WeatherParams -> Response.

Definition requests_get_weather (params : WeatherParams) : IO Response :=
  (emit (EvGet (GetWeather params)) ;;; ret (weather_api params))%io.

Definition get_daily_weather (lat lon : Q) (date : Date) (tz : string)
  : IO WeatherData :=
  (let params := mkWeatherParams lat lon date tz API_KEY "metric" in
   response <- requests_get_weather params ;;
   if status_code response =? 200 then
     data <- lift (json response) ;;
     ret (WithData lat lon date data)
   else
     body <- lift (json response) ;;
     error <- lift (dict_get body "message" (JStr "Failed to fetch data")) ;;
     ret (WithError lat lon date error))%io.

(** The body of the [while] loop up to the update of [current_date]. *)
Definition sample_date (lat lon : Q) (tz : string) (current_date : Z)
  (weather_records : list WeatherRecord) : IO (list WeatherRecord) :=
  (let date_str := strftime current_date in
   weather_data <- get_daily_weather lat lon date_str tz ;;
   match weather_data with
   | WithData _ _ _ data =>
       ret (weather_records ++ [mkWeatherRecord lat lon tz date_str data])
   | WithError _ _ _ error =>
       print (ErrorFetching lat lon date_str error) ;;;
       ret weather_records
   end)%io.

Equations? while_current_date (lat lon : Q) (tz : string)
  (end_date current_date : Z) (weather_records : list WeatherRecord)
  (log : list Event) : Outcome (list WeatherRecord) * list Event
  by wf (Z.to_nat (end_date - current_date + 1)) lt :=
while_current_date lat lon tz end_date current_date weather_records log
  with inspect (current_date <=? end_date) := {
  | exist _ true Hle
      with sample_date lat lon tz current_date weather_records log := {
      | (Return weather_records', log')
          with inspect (add_days current_date 7) := {
          | exist _ (Return next) Hnext =>
              while_current_date lat lon tz end_date next weather_records'
                                 (log' ++ [EvSleep 1])
          | exist _ (Raise e) _ => (Raise e, log') }
      | (Raise e, log') => (Raise e, log') }
  | exist _ false _ => (Return weather_records, log) }.
Proof.
  unfold add_days in Hnext.
  destruct ((1 <=? current_date + 7) && (current_date + 7 <=? MAXORDINAL));
    [ injection Hnext as <- | discriminate ].
  apply Z.leb_le in Hle. lia.
Qed.

Fixpoint for_rows (rows : list RegionRow) (start_date end_date : Z)
  (weather_records : list WeatherRecord) : IO (list WeatherRecord) :=
  match rows with
  | [] => ret weather_records
  | row :: rest =>
      let lat := fst (centroid_coordinates row) in
      let lon := snd (centroid_coordinates row) in
      let tz := "+02:00"%string in
      let current_date := start_date in
      (weather_records' <-
         while_current_date lat lon tz end_date current_date weather_records ;;
       for_rows rest start_date end_date weather_records')%io
  end.

Definition fetch_weather_for_geodataframe (gdf : list RegionRow)
  (start_date end_date : Date) : IO (list WeatherRecord) :=
  (let weather_records := [] in
   start_date <- lift (strptime start_date) ;;
   end_date <- lift (strptime end_date) ;;
   for_rows gdf start_date end_date weather_records)%io.

End Weather.

(** ** OSM fetcher (OpenStreetMap.ipynb) *)

Module Dict.

(** The hashable values a response can use as a dict key.  Python compares
    numbers and booleans by value. *)
Inductive Key : Type :=
| KNone
| KNum (q : Q)
| KStr (s : string).

Definition key_eqb (a b : Key) : bool :=
  match a, b with
  | KNone, KNone => true
  | KNum p, KNum q => Qeq_bool p q
  | KStr s, KStr t => (s =? t)%string
  | _, _ => false
  end.

(** [hash(v)]: lists and dicts are unhashable. *)
Definition hashable (v : JSON) : Outcome Key :=
  match v with
  | JNull => Return KNone
  | JBool b => Return (KNum (if b then 1 else 0)%Q)
  | JNum q => Return (KNum q)
  | JStr s => Return (KStr s)
  | JArr _ | JObj _ => Raise TypeError
  end.

(** A dict, as its items in insertion order. *)
Definition dict (V : Type) : Type := list (Key * V).

(** [d[k] = v]: an existing key keeps its place and takes the new value. *)
Fixpoint set {V} (d : dict V) (k : Key) (v : V) : dict V :=
  match d with
  | [] => [(k, v)]
  | (k', v') :: rest =>
      if key_eqb k' k then (k', v) :: rest else (k', v') :: set rest k v
  end.

(** [d[k]] when [k in d]. *)
Fixpoint lookup {V} (d : dict V) (k : Key) : option V :=
  match d with
  | [] => None
  | (k', v) :: rest => if key_eqb k' k then Some v else lookup rest k
  end.

End Dict.

Section Overpass.

(** The answers of the Overpass interpreter. *)
Variable overpass_api : OverpassQuery -> Response.

Definition requests_get_overpass (query : OverpassQuery) : IO Response :=
  (emit (EvGet (GetOverpass query)) ;;; ret (overpass_api query))%io.

(** [{node['id']: (node['lat'], node['lon']) for node in elements}] *)
Fixpoint nodes_dict (elements : list JSON) (nodes : Dict.dict (JSON * JSON))
  : Outcome (Dict.dict (JSON * JSON)) :=
  match elements with
  | [] => Return nodes
  | node :: rest =>
      obind (getitem node "id") (fun id =>
      obind (getitem node "lat") (fun lat =>
      obind (getitem node "lon") (fun lon =>
      obind (Dict.hashable id) (fun key =>
      nodes_dict rest (Dict.set nodes key (lat, lon))))))
  end.

(** [[nodes[node_id] for node_id in chunk if node_id in nodes]] *)
Definition found_coordinates (nodes : Dict.dict (JSON * JSON)) (chunk : list Z)
  : list (JSON * JSON) :=
  flat_map (fun node_id =>
              match Dict.lookup nodes (Dict.KNum (inject_Z node_id)) with
              | Some coordinate => [coordinate]
              | None => []
              end) chunk.

(** The body of the [for] loop of [fetch_node_coordinates], over the start
    indices that [range] yields. *)
Fixpoint for_chunks (node_ids : list Z) (chunk_size : Z) (starts : list Z)
  (coordinates : list (JSON * JSON)) : IO (list (JSON * JSON)) :=
  match starts with
  | [] => ret coordinates
  | i :: rest =>
      let chunk := slice node_ids i (i + chunk_size) in
      let query := NodesQuery chunk in
      (print (QueryingNodes chunk) ;;;
       print (QueryText query) ;;;
       response <- requests_get_overpass query ;;
       if status_code response =? 200 then
         node_data <- lift (json response) ;;
         elements <- lift (obind (getitem node_data "elements") iter) ;;
         nodes <- lift (nodes_dict elements []) ;;
         for_chunks node_ids chunk_size rest
                    (coordinates ++ found_coordinates nodes chunk)
       else
         print (FailedNodes chunk (status_code response)) ;;;
         for_chunks node_ids chunk_size rest coordinates)%io
  end.

Definition fetch_node_coordinates (node_ids : list Z) (chunk_size : Z)
  : IO (list (JSON * JSON)) :=
  (let coordinates := [] in
   starts <- lift (range 0 (Z.of_nat (List.length node_ids)) chunk_size) ;;
   for_chunks node_ids chunk_size starts coordinates)%io.

(** The default of the [chunk_size] argument. *)
Definition default_chunk_size : Z := 50.

(** [bbox[i]] *)
Definition index (bbox : list float) (i : nat) : Outcome float :=
  match nth_error bbox i with
  | Some x => Return x
  | None => Raise IndexError
  end.

(** The result is the element list, or [JNull] (Python's [None]) when the
    function falls off its end. *)
Definition get_osm_data_from_bbox (bbox : list float) : IO JSON :=
  (b0 <- lift (index bbox 0) ;;
   b1 <- lift (index bbox 1) ;;
   b2 <- lift (index bbox 2) ;;
   b3 <- lift (index bbox 3) ;;
   let query := BBoxQuery b0 b1 b2 b3 in
   response <- requests_get_overpass query ;;
   if status_code response =? 200 then
     osm_data <- lift (json response) ;;
     lift (dict_get osm_data "elements" (JArr []))
   else
     lift (raise_for_status response) ;;;
     ret JNull)%io.

(** The top-level loop that fills [osm_data], one entry per row.  The list
    is a variable of the notebook: the loop returns nothing, and what it
    has appended stays in the list when a call raises. *)
Fixpoint osm_loop (rows : list BoundaryRow) (osm_data : list JSON)
  (log : list Event) : Outcome unit * list JSON * list Event :=
  match rows with
  | [] => (Return tt, osm_data, log)
  | row :: rest =>
      let multipolygon := geometry row in
      let bbox := get_bbox_from_multipolygon multipolygon in
      match get_osm_data_from_bbox bbox log with
      | (Return elements, log') => osm_loop rest (osm_data ++ [elements]) log'
      | (Raise e, log') => (Raise e, osm_data, log')
      end
  end.

End Overpass.

(** ** Merge (OpenWeatherMap.ipynb) *)

(** [pd.merge(left, right, on=..., how='left')]: every left row, in order,
    once per right row with the same key, or once with the right columns
    empty when there is none. *)
Definition merge_left {L R : Type} (key_eqb : L -> R -> bool)
  (left : list L) (right : list R) : list (L * option R) :=
  flat_map (fun l =>
              match filter (key_eqb l) right with
              | [] => [(l, None)]
              | matches => map (fun r => (l, Some r)) matches
              end) left.

(** The join key [['latitude', 'longitude']]; the boundary table takes the
    two columns from [centroid_coordinates]. *)
Definition same_coordinate (row : RegionRow) (weather : WeatherRecord) : bool :=
  Qeq_bool (fst (centroid_coordinates row)) (latitude weather)
  && Qeq_bool (snd (centroid_coordinates row)) (longitude weather).

(** [gdf[['latitude', 'longitude']] = pd.DataFrame(
    gdf['centroid_coordinates'].tolist(), index=gdf.index)]: the frame built
    from no tuple has no column, and pandas refuses to assign it to two
    keys.  Otherwise the two columns are the entries of
    [centroid_coordinates], which [same_coordinate] reads. *)
Definition latitude_longitude (gdf : list RegionRow)
  : Outcome (list RegionRow) :=
  match gdf with
  | [] => Raise ValueError
  | _ => Return gdf
  end.

(** The two cells that compute [merged_df].  The weather table built from
    no record has no column, so that the join key is missing from it. *)
Definition merged_df (gdf : list RegionRow) (weather_df : list WeatherRecord)
  : Outcome (list (RegionRow * option WeatherRecord)) :=
  obind (latitude_longitude gdf) (fun gdf =>
  match weather_df with
  | [] => Raise KeyError
  | _ => Return (merge_left same_coordinate gdf weather_df)
  end).

(** ** Derived columns of the boundary table (both notebooks) *)

(** [gdf["geometry"].progress_apply(convert_coordinates_format)]: one value
    per row, in the order of the table. *)
Definition coordinates_column (gdf : list BoundaryRow) : list PyVal :=
  map (fun row => convert_coordinates_format (geometry row)) gdf.

(** [gdf[column] = values] for a list of values: pandas refuses a list whose
    length is not the number of rows. *)
Definition set_column {A B C} (make : A -> B -> C) (rows : list A)
  (values : list B) : Outcome (list C) :=
  if (List.length values =? List.length rows)%nat
  then Return (map (fun rv => make (fst rv) (snd rv)) (combine rows values))
  else Raise ValueError.

Section Loader.

Variable is_valid : Geometry -> bool.
Variable centroid : Geometry -> option Coord.

(** The two cells that add ["coordinates"] and ["centroid_coordinates"]. *)
Definition load_regions (gdf : list BoundaryRow) : Outcome (list RegionRow) :=
  let gdf := combine gdf (coordinates_column gdf) in
  obind (get_centroid_coordinates is_valid centroid (map fst gdf))
        (fun centroids =>
  set_column (fun row centroid => mkRegionRow (fst row) (snd row) centroid)
             gdf centroids).

End Loader.

(** ** Second pass over the weather table (OpenWeatherMap.ipynb) *)

Declare Scope outcome_scope.
Delimit Scope outcome_scope with outcome.
Notation "x <- c ;; k" := (obind c (fun x => k))
  (at level 61, c at next level, right associativity) : outcome_scope.

(** The named scalar fields of one day summary. *)
Record WeatherFields : Type := mkWeatherFields {
  cloud_cover : JSON;
  humidity_percentage : JSON;
  precipitation_total_mm : JSON;
  temperature_min_celsius : JSON;
  temperature_max_celsius : JSON;
  temperature_afternoon_celsius : JSON;
  temperature_night_celsius : JSON;
  temperature_evening_celsius : JSON;
  temperature_morning_celsius : JSON;
  pressure_hpa : JSON;
  wind_max_speed_kmh : JSON;
  wind_max_direction_degrees : JSON
}.

(** [data[k1][k2]...] *)
Definition subscript (data : JSON) (keys : list string) : Outcome JSON :=
  fold_left (fun value key => obind value (fun d => getitem d key))
            keys (Return data).

Definition process_weather_data (data : JSON) : Outcome WeatherFields :=
  (cloud_cover <- subscript data ["cloud_cover"; "afternoon"]%string ;;
   humidity_percentage <- subscript data ["humidity"; "afternoon"]%string ;;
   precipitation_total_mm <- subscript data ["precipitation"; "total"]%string ;;
   temperature_min_celsius <- subscript data ["temperature"; "min"]%string ;;
   temperature_max_celsius <- subscript data ["temperature"; "max"]%string ;;
   temperature_afternoon_celsius <-
     subscript data ["temperature"; "afternoon"]%string ;;
   temperature_night_celsius <- subscript data ["temperature"; "night"]%string ;;
   temperature_evening_celsius <- subscript data ["temperature"; "evening"]%string ;;
   temperature_morning_celsius <- subscript data ["temperature"; "morning"]%string ;;
   pressure_hpa <- subscript data ["pressure"; "afternoon"]%string ;;
   wind_max_speed_kmh <- subscript data ["wind"; "max"; "speed"]%string ;;
   wind_max_direction_degrees <-
     subscript data ["wind"; "max"; "direction"]%string ;;
   Return (mkWeatherFields cloud_cover humidity_percentage
             precipitation_total_mm temperature_min_celsius
             temperature_max_celsius temperature_afternoon_celsius
             temperature_night_celsius temperature_evening_celsius
             temperature_morning_celsius pressure_hpa wind_max_speed_kmh
             wind_max_direction_degrees))%outcome.

(** [weather_df['data']]: the table built from an empty list of records has
    no column at all. *)
Definition data_column (weather_df : list WeatherRecord)
  : Outcome (list JSON) :=
  match weather_df with
  | [] => Raise KeyError
  | _ => Return (map data weather_df)
  end.

(** [column.apply(process_weather_data)], row after row. *)
Fixpoint apply_process_weather_data (column : list JSON)
  : Outcome (list WeatherFields) :=
  match column with
  | [] => Return []
  | data :: rest =>
      (fields <- process_weather_data data ;;
       processed <- apply_process_weather_data rest ;;
       Return (fields :: processed))%outcome
  end.

(** The cells that compute [processed_data] and [processed_df] and
    concatenate them to [weather_df], column-wise. *)
Definition add_processed_columns (weather_df : list WeatherRecord)
  : Outcome (list (WeatherRecord * WeatherFields)) :=
  (column <- data_column weather_df ;;
   processed_data <- apply_process_weather_data column ;;
   Return (combine weather_df processed_data))%outcome.

(** * Notions used to state the properties *)

(** ** Bounding boxes *)

(** Python's [<=] on floats: a comparison with not-a-number is false. *)
Definition float_le (a b : float) : bool :=
  match a, b with
  | Some x, Some y => Qle_bool x y
  | _, _ => false
  end.

(** The order of a box as the specification states it, for every polygon
    and multi-polygon: entry 0 is at most entry 2 and entry 1 at most
    entry 3. *)
Definition every_box_ordered : Prop :=
  forall g : Geometry,
    geom_type g = "Polygon"%string \/ geom_type g = "MultiPolygon"%string ->
    exists b0 b1 b2 b3,
      get_bbox_from_multipolygon g = [b0; b1; b2; b3]
      /\ float_le b0 b2 = true
      /\ float_le b1 b3 = true.

(** ** Centroids *)

(** The result of [get_centroid_coordinates] as the specification states
    it, for every table: no error, and as many centroids as valid
    geometries. *)
Definition invalid_silently_excluded : Prop :=
  forall (is_valid : Geometry -> bool) (centroid : Geometry -> option Coord)
         (gdf : list BoundaryRow),
    exists centroids,
      get_centroid_coordinates is_valid centroid gdf = Return centroids
      /\ List.length centroids
         = List.length (filter (fun row => is_valid (geometry row)) gdf).

(** ** Merge *)

(** The left join as the specification states it, for every pair of
    tables: a boundary row whose coordinate is not in the weather table is
    in the output, with empty weather fields. *)
Definition unmatched_rows_kept : Prop :=
  forall (gdf : list RegionRow) (weather_df : list WeatherRecord)
         (row : RegionRow),
    In row gdf ->
    (forall weather, In weather weather_df ->
                     same_coordinate row weather = false) ->
    exists merged,
      merged_df gdf weather_df = Return merged /\ In (row, None) merged.

(** ** Weather fetch loop *)

(** The text that the loop prints for an error response: the body's
    ['message'], or the fixed default. *)
Definition server_message (fields : list (string * JSON)) : JSON :=
  match assoc "message" fields with
  | Some v => v
  | None => JStr "Failed to fetch data"
  end.

(** A response that [get_daily_weather] handles without raising: JSON, and
    an object unless the status is 200. *)
Definition answers (response : Response) : bool :=
  match body response with
  | None => false
  | Some (JObj _) => true
  | Some _ => status_code response =? 200
  end.

(** The dates that the [while] loop visits: [start], [start + 7], ... up to
    [end_date] included. *)
Definition sampled_dates (start_date end_date : Z) : list Z :=
  map (fun k => start_date + Z.of_nat k * 7)
      (seq 0 (Z.to_nat (range_len start_date (end_date + 1) 7))).

(** The query parameters of the request for one sampled date. *)
Definition weather_request (API_KEY : string) (lat lon : Q) (tz : string)
  (current_date : Z) : WeatherParams :=
  mkWeatherParams lat lon (strftime current_date) tz API_KEY "metric".

(** The ceiling of [a / b], for [0 < b]. *)
Definition ceil_div (a b : Z) : Z := (a + b - 1) / b.

(** The request count of the specification: the ceiling of
    [days_in_range / 7], plus one. *)
Definition spec_request_count (days_in_range : Z) : Z :=
  ceil_div days_in_range 7 + 1.

(** The error policy of the weather loop as the specification states it:
    whenever the request of a (centroid, date) pair comes back with a status
    outside 200..299, the iteration prints a message and ends normally with
    the records untouched. *)
Definition error_status_printed_and_skipped : Prop :=
  forall (API_KEY : string) (weather_api : WeatherParams -> Response)
         (lat lon : Q) (tz : string) (current_date : Z)
         (weather_records : list WeatherRecord) (log : list Event),
    let params := weather_request API_KEY lat lon tz current_date in
    ~ (200 <= status_code (weather_api params) < 300) ->
    exists error,
      sample_date API_KEY weather_api lat lon tz current_date
                  weather_records log
      = (Return weather_records,
         log ++ [EvGet (GetWeather params);
                 EvPrint (ErrorFetching lat lon (strftime current_date)
                                        error)]).

(** ** Node lookups *)

(** The chunks that the loop of [fetch_node_coordinates] cuts:
    [node_ids[i:i + chunk_size]] for [i] in
    [range(0, len(node_ids), chunk_size)]. *)
Definition chunks {A} (node_ids : list A) (chunk_size : Z) : list (list A) :=
  match range 0 (Z.of_nat (List.length node_ids)) chunk_size with
  | Return starts =>
      map (fun i => slice node_ids i (i + chunk_size)) starts
  | Raise _ => []
  end.

(** What the loop makes of a status-200 response: the dict of its nodes. *)
Definition parse_nodes (response : Response)
  : Outcome (Dict.dict (JSON * JSON)) :=
  obind (json response) (fun node_data =>
  obind (obind (getitem node_data "elements") iter) (fun elements =>
  nodes_dict elements [])).


(** The entry that the dict comprehension makes of one element. *)
Definition node_entry (element : JSON)
  : Outcome (Dict.Key * (JSON * JSON)) :=
  (id <- getitem element "id" ;;
   lat <- getitem element "lat" ;;
   lon <- getitem element "lon" ;;
   key <- Dict.hashable id ;;
   Return (key, (lat, lon)))%outcome.


(** The events of the iteration of one chunk, up to the request. *)
Definition chunk_query_events (chunk : list Z) : list Event :=
  [EvPrint (QueryingNodes chunk);
   EvPrint (QueryText (NodesQuery chunk));
   EvGet (GetOverpass (NodesQuery chunk))].

Section NodeNotions.

Variable overpass_api : OverpassQuery -> Response.

(** The coordinates that one chunk adds to the result. *)
Definition chunk_coordinates (chunk : list Z) : list (JSON * JSON) :=
  let response := overpass_api (NodesQuery chunk) in
  if status_code response =? 200 then
    match parse_nodes response with
    | Return nodes => found_coordinates nodes chunk
    | Raise _ => []
    end
  else [].

(** All the events of the iteration of one chunk: a failure message follows
    the request when the status is not 200. *)
Definition chunk_events (chunk : list Z) : list Event :=
  let response := overpass_api (NodesQuery chunk) in
  chunk_query_events chunk
  ++ (if status_code response =? 200 then []
      else [EvPrint (FailedNodes chunk (status_code response))]).


End NodeNotions.



(** ** Overpass failures *)

(** What [get_osm_data_from_bbox] returns for a JSON object: its
    ['elements'], or the empty list. *)
Definition elements_of (fields : list (string * JSON)) : JSON :=
  match assoc "elements" fields with
  | Some v => v
  | None => JArr []
  end.

(** The error policy of the OSM fetcher as the specification states it:
    every status other than 200 raises. *)
Definition other_status_raises : Prop :=
  forall (overpass_api : OverpassQuery -> Response) (b0 b1 b2 b3 : float)
         (log : list Event),
    status_code (overpass_api (BBoxQuery b0 b1 b2 b3)) <> 200 ->
    exists e,
      fst (get_osm_data_from_bbox overpass_api [b0; b1; b2; b3] log) = Raise e.

(** * Sample inputs *)

(** The unit square whose lower-left corner is [(x0, 0)]. *)
Definition unit_square (x0 : Q) : polygon :=
  mkPolygon [(x0, 0); (x0 + 1, 0); (x0 + 1, 1); (x0, 1); (x0, 0)]%Q [].

(** Two disjoint unit squares. *)
Definition two_squares : Geometry :=
  MultiPolygon [unit_square 0; unit_square 5].

(** [Polygon()], the polygon without coordinates. *)
Definition empty_polygon : Geometry := Polygon (mkPolygon [] []).

(** A ring that crosses itself. *)
Definition bow_tie : polygon :=
  mkPolygon [(0, 0); (1, 1); (1, 0); (0, 1); (0, 0)]%Q [].

(** shapely on the sample geometries, which are empty or polygons with a
    ring of four edges.  GEOS finds an empty geometry valid, and such a ring
    valid when its opposite edges do not cross. *)
Definition cross (o a b : Coord) : Q :=
  ((fst a - fst o) * (snd b - snd o) - (snd a - snd o) * (fst b - fst o))%Q.

Definition edges_cross (p1 p2 p3 p4 : Coord) : bool :=
  negb (Qle_bool 0 (cross p3 p4 p1 * cross p3 p4 p2))
  && negb (Qle_bool 0 (cross p1 p2 p3 * cross p1 p2 p4)).

Definition sample_is_valid (g : Geometry) : bool :=
  match envelope_coords g with
  | [a; b; c; d; _] => negb (edges_cross a b c d || edges_cross b c d a)
  | _ => true
  end.

(** The centroid of a rectangle is the centre of its bounds; the centroid
    of an empty geometry is [POINT EMPTY].  The code asks for the centroid
    of valid geometries only. *)
Definition sample_centroid (g : Geometry) : option Coord :=
  match bounds g with
  | (Some minx, Some miny, Some maxx, Some maxy) =>
      Some ((minx + maxx) / 2, (miny + maxy) / 2)%Q
  | _ => None
  end.

(** Rows of the boundary table. *)
Definition khartoum : RegionRow :=
  mkRegionRow (mkBoundaryRow "SDN.6_1" "Khartoum" (Polygon (unit_square 32)))
              (convert_coordinates_format (Polygon (unit_square 32)))
              (15 # 1, 32 # 1)%Q.

Definition kassala : RegionRow :=
  mkRegionRow (mkBoundaryRow "SDN.5_1" "Kassala" (Polygon (unit_square 36)))
              (convert_coordinates_format (Polygon (unit_square 36)))
              (16 # 1, 36 # 1)%Q.

Definition north_kordofan : BoundaryRow :=
  mkBoundaryRow "SDN.9_1" "North Kordofan" (Polygon (unit_square 29)).

Definition river_nile : BoundaryRow :=
  mkBoundaryRow "SDN.12_1" "River Nile" (Polygon (unit_square 33)).

(** A row without coordinates and a row whose ring crosses itself. *)
Definition empty_region : BoundaryRow :=
  mkBoundaryRow "SDN.0_1" "Empty" empty_polygon.

Definition crossed_region : BoundaryRow :=
  mkBoundaryRow "SDN.0_2" "Crossed" (Polygon bow_tie).

(** A row of the weather table, at the centroid of [khartoum]. *)
Definition khartoum_week_1 : WeatherRecord :=
  mkWeatherRecord (15 # 1) (32 # 1) "+02:00" (mkDate 2024 1 1) (JObj []).

(** An endpoint that answers every request with status 200. *)
Definition always_ok (params : WeatherParams) : Response :=
  mkResponse 200 (Some (JObj [])).

(** A gateway that answers 502 with a page that is not JSON. *)
Definition bad_gateway (params : WeatherParams) : Response :=
  mkResponse 502 None.

(** An endpoint that rejects the key, the way the day-summary endpoint
    reports errors. *)
Definition unauthorized (params : WeatherParams) : Response :=
  mkResponse 401 (Some (JObj [("cod"%string, JNum (401 # 1));
                              ("message"%string, JStr "Invalid API key")])).

(** The run of the notebook on one region: 2024-01-01 to 2024-12-31. *)
Definition year_2024_run : Outcome (list WeatherRecord) * list Event :=
  fetch_weather_for_geodataframe "key" always_ok [khartoum]
    (mkDate 2024 1 1) (mkDate 2024 12 31) [].

(** A node element of an Overpass answer. *)
Definition node (id : Z) (lat lon : Q) : JSON :=
  JObj [("type"%string, JStr "node"); ("id"%string, JNum (inject_Z id));
        ("lat"%string, JNum lat); ("lon"%string, JNum lon)].

(** An interpreter that knows nodes 1 and 3 and answers only the queries
    that start with node 1; the gateway times out on the others. *)
Definition starts_with_1 (query : OverpassQuery) : bool :=
  match query with
  | NodesQuery (first :: _) => first =? 1
  | _ => false
  end.

Definition knows_1_and_3 (query : OverpassQuery) : Response :=
  if starts_with_1 query then
    mkResponse 200
      (Some (JObj [("elements"%string,
                    JArr [node 1 (155 # 10) (325 # 10);
                          node 3 (156 # 10) (326 # 10)])]))
  else mkResponse 504 None.

(** An interpreter that answers 204, No Content. *)
Definition no_content (query : OverpassQuery) : Response :=
  mkResponse 204 None.

(** An interpreter that answers 429, Too Many Requests. *)
Definition too_many_requests (query : OverpassQuery) : Response :=
  mkResponse 429 None.

(** An interpreter that finds one way in every box. *)
Definition one_way (query : OverpassQuery) : Response :=
  mkResponse 200
    (Some (JObj [("version"%string, JNum (6 # 10));
                 ("elements"%string,
                  JArr [JObj [("type"%string, JStr "way");
                              ("id"%string, JNum (4 # 1))]])])).

(** * Notions for the runs of the loops *)

Section PairNotions.

Variable API_KEY : string.
Variable weather_api : WeatherParams -> Response.

(** The record that the iteration of one (centroid, date) pair appends: one
    when the status is 200, none otherwise. *)
Definition pair_records (lat lon : Q) (tz : string) (d : Z)
  : list WeatherRecord :=
  let response := weather_api (weather_request API_KEY lat lon tz d) in
  if status_code response =? 200 then
    match body response with
    | Some data => [mkWeatherRecord lat lon tz (strftime d) data]
    | None => []
    end
  else [].

(** What the iteration of one pair prints: the error of a response whose
    status is not 200. *)
Definition pair_messages (lat lon : Q) (tz : string) (d : Z) : list Message :=
  let response := weather_api (weather_request API_KEY lat lon tz d) in
  if status_code response =? 200 then []
  else
    match body response with
    | Some (JObj fields) =>
        [ErrorFetching lat lon (strftime d) (server_message fields)]
    | _ => []
    end.

(** The events of the iteration of one pair: the request, the message if
    any, the pause. *)
Definition pair_events (lat lon : Q) (tz : string) (d : Z) : list Event :=
  EvGet (GetWeather (weather_request API_KEY lat lon tz d))
  :: map EvPrint (pair_messages lat lon tz d) ++ [EvSleep 1].

(** The records and the events of the loop over the dates of one region. *)
Definition region_records (dates : list Z) (row : RegionRow)
  : list WeatherRecord :=
  flat_map (pair_records (fst (centroid_coordinates row))
                         (snd (centroid_coordinates row)) "+02:00") dates.

Definition region_events (dates : list Z) (row : RegionRow) : list Event :=
  flat_map (pair_events (fst (centroid_coordinates row))
                        (snd (centroid_coordinates row)) "+02:00") dates.

End PairNotions.

(** The pauses of a run, in seconds and in order. *)
Definition sleeps (log : list Event) : list Z :=
  flat_map (fun e => match e with EvSleep s => [s] | _ => [] end) log.

(** The network traffic of a run: a request is [None], a pause of [s]
    seconds is [Some s]. *)
Definition pacing (log : list Event) : list (option Z) :=
  flat_map (fun e => match e with
                     | EvGet _ => [None]
                     | EvSleep s => [Some s]
                     | EvPrint _ => []
                     end) log.

(** The body of a response, [null] when it is not JSON. *)
Definition payload (response : Response) : JSON :=
  match body response with
  | Some data => data
  | None => JNull
  end.

(** An endpoint that has data for the first half of each month only and
    answers 404 with a message for the other days. *)
Definition first_half_only (params : WeatherParams) : Response :=
  if Dates.day (Net.date params) <=? 15 then
    mkResponse 200 (Some (JObj [("units"%string, JStr "metric")]))
  else
    mkResponse 404 (Some (JObj [("cod"%string, JNum (404 # 1));
                                ("message"%string, JStr "No data")])).

(** An endpoint that answers 200 with a page that is not JSON. *)
Definition broken_ok (params : WeatherParams) : Response :=
  mkResponse 200 None.

(** The Overpass box of a geometry: (south, west, north, east) taken from
    its bounds (minx, miny, maxx, maxy). *)
Definition bbox_query (g : Geometry) : OverpassQuery :=
  let '(minx, miny, maxx, maxy) := bounds g in
  BBoxQuery miny minx maxy maxx.

Section RegionNotions.

Variable overpass_api : OverpassQuery -> Response.

(** The answer to the query of the box of a row. *)
Definition region_response (row : BoundaryRow) : Response :=
  overpass_api (bbox_query (geometry row)).

(** A row whose answer has status 200 and a JSON object as body. *)
Definition region_ok (row : BoundaryRow) : Prop :=
  status_code (region_response row) = 200
  /\ exists fields, body (region_response row) = Some (JObj fields).

(** What the loop stores for such a row. *)
Definition region_elements (row : BoundaryRow) : JSON :=
  match body (region_response row) with
  | Some (JObj fields) => elements_of fields
  | _ => JArr []
  end.

End RegionNotions.

Definition region_request (row : BoundaryRow) : Event :=
  EvGet (GetOverpass (bbox_query (geometry row))).

(** An interpreter that answers the boxes west of 30 degrees east and
    refuses the others with 429. *)
Definition west_only (query : OverpassQuery) : Response :=
  match query with
  | BBoxQuery _ (Some west) _ _ =>
      if Qle_bool west (30 # 1) then one_way query else too_many_requests query
  | _ => too_many_requests query
  end.

(** An interpreter that answers 200 with a JSON list. *)
Definition bare_list (query : OverpassQuery) : Response :=
  mkResponse 200 (Some (JArr [])).

Section ChunkNotions.

Variable overpass_api : OverpassQuery -> Response.

(** A chunk whose answer the loop handles: any status but 200, or a
    well-formed list of nodes. *)
Definition chunk_handled (chunk : list Z) : Prop :=
  status_code (overpass_api (NodesQuery chunk)) <> 200
  \/ exists nodes, parse_nodes (overpass_api (NodesQuery chunk)) = Return nodes.

End ChunkNotions.

(** The last node with a given id in a list of (id, lat, lon). *)
Definition last_node (nodes : list (Z * Q * Q)) (node_id : Z)
  : option (Z * Q * Q) :=
  find (fun n => fst (fst n) =? node_id) (rev nodes).

(** An interpreter that returns the nodes it is asked for, in ascending
    order of their ids as Overpass does, at the position (id, -id). *)
Definition grid (query : OverpassQuery) : Response :=
  match query with
  | NodesQuery chunk =>
      mkResponse 200
        (Some (JObj [("elements"%string,
                      JArr (map (fun id => node id (inject_Z id)
                                                (inject_Z (- id)))
                                (rev chunk)))]))
  | _ => mkResponse 400 None
  end.

(** An interpreter whose second answer lacks the coordinates. *)
Definition ways_for_3 (query : OverpassQuery) : Response :=
  match query with
  | NodesQuery (3 :: _) =>
      mkResponse 200
        (Some (JObj [("elements"%string,
                      JArr [JObj [("type"%string, JStr "way");
                                  ("id"%string, JNum (3 # 1))]])]))
  | _ => knows_1_and_3 query
  end.

(** An answer that lists node 7 twice. *)
Definition node_7_twice : list (Z * Q * Q) :=
  [(7, (1 # 2)%Q, (3 # 2)%Q); (5, 0%Q, 0%Q); (7, (9 # 2)%Q, (8 # 2)%Q)].

Definition answers_node_7_twice (query : OverpassQuery) : Response :=
  mkResponse 200
    (Some (JObj [("elements"%string,
                  JArr (map (fun n => node (fst (fst n)) (snd (fst n)) (snd n))
                            node_7_twice))])).

(** ** Day summaries *)

(** The six sections of a day summary that [process_weather_data] reads,
    filled from the fields. *)
Definition summary_sections (f : WeatherFields) : list (string * JSON) :=
  [("cloud_cover"%string, JObj [("afternoon"%string, cloud_cover f)]);
   ("humidity"%string, JObj [("afternoon"%string, humidity_percentage f)]);
   ("precipitation"%string,
    JObj [("total"%string, precipitation_total_mm f)]);
   ("temperature"%string,
    JObj [("min"%string, temperature_min_celsius f);
          ("max"%string, temperature_max_celsius f);
          ("afternoon"%string, temperature_afternoon_celsius f);
          ("night"%string, temperature_night_celsius f);
          ("evening"%string, temperature_evening_celsius f);
          ("morning"%string, temperature_morning_celsius f)]);
   ("pressure"%string, JObj [("afternoon"%string, pressure_hpa f)]);
   ("wind"%string,
    JObj [("max"%string,
           JObj [("speed"%string, wind_max_speed_kmh f);
                 ("direction"%string, wind_max_direction_degrees f)])])].

Definition section_names : list string :=
  ["cloud_cover"; "humidity"; "precipitation"; "temperature"; "pressure";
   "wind"]%string.

(** The day summary with the given fields, after any other entries (such
    as lat, lon, tz, date and units). *)
Definition day_summary (others : list (string * JSON)) (f : WeatherFields)
  : JSON :=
  JObj (others ++ summary_sections f).

(** The example response of the notebook. *)
Definition example_fields : WeatherFields :=
  mkWeatherFields (JNum 0) (JNum 33) (JNum 0)
    (JNum (28648 # 100)) (JNum (29924 # 100)) (JNum (29615 # 100))
    (JNum (28956 # 100)) (JNum (29593 # 100)) (JNum (28759 # 100))
    (JNum 1015) (JNum (87 # 10)) (JNum 120).

Definition example_others : list (string * JSON) :=
  [("lat"%string, JNum 33); ("lon"%string, JNum 35);
   ("tz"%string, JStr "+02:00"); ("date"%string, JStr "2020-03-04");
   ("units"%string, JStr "standard")].

(** An endpoint that answers every request with the example response. *)
Definition example_api (params : WeatherParams) : Response :=
  mkResponse 200 (Some (day_summary example_others example_fields)).

(** * Properties *)

(** ** Flattening of geometries *)

Lemma convert_multipolygon (ps : list polygon) :
  convert_coordinates_format (MultiPolygon ps)
  = PList [PList (map (fun p => coords_list (exterior p)) ps)].
Proof. reflexivity. Qed.

Lemma convert_polygon (p : polygon) :
  convert_coordinates_format (Polygon p) = PList [coords_list (exterior p)].
Proof. reflexivity. Qed.

Lemma convert_multipolygon_len (ps : list polygon) :
  py_len (convert_coordinates_format (MultiPolygon ps)) = 1%nat.
Proof. reflexivity. Qed.

(** C1.  On a multi-polygon of two polygons the result of
    [convert_coordinates_format] has a single outer entry, the list of the
    two exterior rings: it does not have one outer entry per polygon, while
    the docstring promises a list of rings (lists of coordinates). *)
Theorem convert_two_squares_single_entry :
  List.length (geoms two_squares) = 2%nat
  /\ convert_coordinates_format two_squares
     = PList [PList [coords_list (exterior (unit_square 0));
                     coords_list (exterior (unit_square 5))]]
  /\ py_len (convert_coordinates_format two_squares) = 1%nat
  /\ py_len (convert_coordinates_format two_squares)
     <> List.length (geoms two_squares).
Proof.
  repeat split; discriminate.
Qed.

(** C9.  A geometry that is neither a polygon nor a multi-polygon is
    converted to the empty list, without an error. *)
Theorem convert_other_geometry_empty (g : Geometry) :
  geom_type g <> "Polygon"%string ->
  geom_type g <> "MultiPolygon"%string ->
  convert_coordinates_format g = PList [].
Proof.
  intros Hpoly Hmulti.
  destruct g; try reflexivity; simpl in *; congruence.
Qed.

Lemma convert_other_geometry_empty_witness :
  geom_type (LineString [(0, 0); (1, 1)]%Q) <> "Polygon"%string
  /\ geom_type (LineString [(0, 0); (1, 1)]%Q) <> "MultiPolygon"%string
  /\ convert_coordinates_format (LineString [(0, 0); (1, 1)]%Q) = PList [].
Proof.
  split; [ discriminate | split; [ discriminate | ] ].
  apply (convert_other_geometry_empty (LineString [(0, 0); (1, 1)]%Q));
    discriminate.
Defined.

(** ** Centroids *)

Lemma filter_length_lt {A} (f : A -> bool) (l : list A) (x : A) :
  In x l -> f x = false -> (List.length (filter f l) < List.length l)%nat.
Proof.
  induction l as [| a l IH]; simpl; [ tauto | ].
  intros [-> | Hin] Hx.
  - rewrite Hx. pose proof (filter_length_le f l). lia.
  - specialize (IH Hin Hx). destruct (f a); simpl; lia.
Qed.

Lemma forallb_false_exists {A} (f : A -> bool) (l : list A) :
  forallb f l = false -> exists a, In a l /\ f a = false.
Proof.
  induction l as [| a l IH]; simpl; [ discriminate | ].
  destruct (f a) eqn:Ha; simpl.
  - intros Hl. destruct (IH Hl) as (b & Hb & Hfb). exists b. auto.
  - intros _. exists a. auto.
Qed.

Section CentroidFacts.

Variable is_valid : Geometry -> bool.
Variable centroid : Geometry -> option Coord.

Let valid_row (row : BoundaryRow) : bool := is_valid (geometry row).

(** The point that a (latitude, longitude) entry was read from. *)
Let point_of (c : Q * Q) : option Coord := Some (snd c, fst c).

Lemma centroids_loop_spec (rows : list BoundaryRow) :
  (forall row, In row rows -> is_valid (geometry row) = true ->
               centroid (geometry row) <> None) ->
  forall acc : list (Q * Q),
  exists centroids,
    centroids_loop is_valid centroid rows acc = Return (acc ++ centroids)
    /\ map point_of centroids
       = map (fun row => centroid (geometry row)) (filter valid_row rows).
Proof.
  induction rows as [| row rows IH]; intros Hpoints acc; simpl.
  - exists []. now rewrite app_nil_r.
  - assert (Hrest : forall r, In r rows -> is_valid (geometry r) = true ->
                              centroid (geometry r) <> None)
      by (intros r Hr; apply Hpoints; now right).
    unfold valid_row at 1.
    destruct (is_valid (geometry row)) eqn:Hvalid.
    + pose proof (Hpoints row (or_introl eq_refl) Hvalid) as Hpoint.
      destruct (centroid (geometry row)) as [[x y] |] eqn:Hc;
        [ | congruence ].
      simpl.
      destruct (IH Hrest (acc ++ [(y, x)])) as (centroids & Hrun & Hmap).
      exists ((y, x) :: centroids). rewrite Hrun, <- app_assoc.
      split; [ reflexivity | ]. simpl. now rewrite Hmap, Hc.
    + apply (IH Hrest acc).
Qed.

Lemma centroids_loop_some_empty_point (rows : list BoundaryRow)
  (row : BoundaryRow) :
  In row rows ->
  is_valid (geometry row) = true ->
  centroid (geometry row) = None ->
  forall acc : list (Q * Q),
    centroids_loop is_valid centroid rows acc = Raise GEOSException.
Proof.
  intros Hin Hvalid Hempty.
  induction rows as [| r rows IH]; intros acc; [ destruct Hin | ].
  simpl.
  destruct (is_valid (geometry r)) eqn:Hr.
  - destruct (centroid (geometry r)) as [[x y] |] eqn:Hc; [ | reflexivity ].
    simpl. apply IH.
    destruct Hin as [-> | Hin]; [ congruence | exact Hin ].
  - apply IH.
    destruct Hin as [-> | Hin]; [ congruence | exact Hin ].
Qed.

End CentroidFacts.

(** C6, as stated, fails on a table with an empty geometry: shapely finds
    it valid, its centroid is [POINT EMPTY], and reading [centroid.y]
    raises.  No list is returned, the centroids of the other rows
    included. *)
Lemma empty_geometry_has_no_centroid :
  ~ invalid_silently_excluded
  /\ sample_is_valid (geometry empty_region) = true
  /\ sample_centroid (geometry empty_region) = None
  /\ get_centroid_coordinates sample_is_valid sample_centroid
       [north_kordofan; empty_region; river_nile]
     = Raise GEOSException.
Proof.
  split; [ | repeat split ].
  intros Hclaim.
  destruct (Hclaim sample_is_valid sample_centroid
              [north_kordofan; empty_region; river_nile])
    as (centroids & Hrun & _).
  vm_compute in Hrun. discriminate.
Qed.

(** C6, amended.  When every valid geometry of the table has a centroid
    with coordinates (none of them is empty), [get_centroid_coordinates]
    returns the (latitude, longitude) of the centroid of exactly the rows
    whose geometry is valid, in the order of the table; the other rows
    leave no trace.  So the list is as long as the number of valid
    geometries, at most as long as the table, and shorter as soon as one
    geometry is invalid. *)
Theorem get_centroid_coordinates_valid_only
  (is_valid : Geometry -> bool) (centroid : Geometry -> option Coord)
  (gdf : list BoundaryRow) :
  (forall row, In row gdf -> is_valid (geometry row) = true ->
               centroid (geometry row) <> None) ->
  let valid := filter (fun row => is_valid (geometry row)) gdf in
  exists centroids,
    get_centroid_coordinates is_valid centroid gdf = Return centroids
    /\ map (fun c => Some (snd c, fst c)) centroids
       = map (fun row => centroid (geometry row)) valid
    /\ List.length centroids = List.length valid
    /\ (List.length centroids <= List.length gdf)%nat
    /\ ((exists row, In row gdf /\ is_valid (geometry row) = false) <->
        (List.length centroids < List.length gdf)%nat).
Proof.
  intros Hpoints valid.
  destruct (centroids_loop_spec is_valid centroid gdf Hpoints [])
    as (centroids & Hrun & Hmap).
  exists centroids. cbv zeta in Hmap. fold valid in Hmap.
  assert (Hlen : List.length centroids = List.length valid).
  { apply (f_equal (@List.length _)) in Hmap.
    now rewrite !length_map in Hmap. }
  split; [ exact Hrun | ]. split; [ exact Hmap | ].
  split; [ exact Hlen | ]. rewrite Hlen.
  split; [ apply filter_length_le | ]. split.
  - intros (row & Hin & Hinv).
    apply (filter_length_lt _ _ row Hin Hinv).
  - intros Hlt.
    destruct (forallb (fun row => is_valid (geometry row)) gdf) eqn:Hall.
    + exfalso. subst valid.
      rewrite (forallb_filter_id _ _ Hall) in Hlt. lia.
    + destruct (forallb_false_exists _ _ Hall) as (row & Hin & Hinv).
      now exists row.
Qed.

Lemma get_centroid_coordinates_valid_only_witness :
  exists centroids,
    get_centroid_coordinates sample_is_valid sample_centroid
      [north_kordofan; crossed_region; river_nile]
    = Return centroids
    /\ List.length centroids = 2%nat.
Proof.
  assert (Hpoints : forall row,
             In row [north_kordofan; crossed_region; river_nile] ->
             sample_is_valid (geometry row) = true ->
             sample_centroid (geometry row) <> None)
    by (intros row [<- | [<- | [<- | []]]] _; discriminate).
  destruct (get_centroid_coordinates_valid_only sample_is_valid
              sample_centroid [north_kordofan; crossed_region; river_nile]
              Hpoints)
    as (centroids & Hrun & _ & Hlen & _).
  exists centroids. split; [ exact Hrun | ]. rewrite Hlen. reflexivity.
Defined.

(** ** Bounding boxes *)

Lemma minimum_le_init (q : Q) (qs : list Q) : (minimum q qs <= q)%Q.
Proof.
  revert q. induction qs as [| a qs IH]; intros q; unfold minimum; simpl.
  - apply Qle_refl.
  - eapply Qle_trans; [ apply IH | apply Q.le_min_l ].
Qed.

Lemma minimum_le_in (q : Q) (qs : list Q) (x : Q) :
  In x qs -> (minimum q qs <= x)%Q.
Proof.
  revert q. induction qs as [| a qs IH]; intros q; simpl; [ tauto | ].
  intros [-> | Hin].
  - eapply Qle_trans; [ apply (minimum_le_init (Qmin q x) qs) | apply Q.le_min_r ].
  - apply (IH (Qmin q a) Hin).
Qed.

Lemma maximum_ge_init (q : Q) (qs : list Q) : (q <= maximum q qs)%Q.
Proof.
  revert q. induction qs as [| a qs IH]; intros q; unfold maximum; simpl.
  - apply Qle_refl.
  - eapply Qle_trans; [ apply Q.le_max_l | apply IH ].
Qed.

Lemma maximum_ge_in (q : Q) (qs : list Q) (x : Q) :
  In x qs -> (x <= maximum q qs)%Q.
Proof.
  revert q. induction qs as [| a qs IH]; intros q; simpl; [ tauto | ].
  intros [-> | Hin].
  - eapply Qle_trans; [ apply Q.le_max_r | apply (maximum_ge_init (Qmax q x) qs) ].
  - apply (IH (Qmax q a) Hin).
Qed.

(** C3, as stated, fails on the polygon without coordinates: its bounds
    are four not-a-number values, the box is the same four values, and no
    comparison between them holds. *)
Lemma empty_polygon_box_not_ordered :
  ~ every_box_ordered
  /\ geom_type empty_polygon = "Polygon"%string
  /\ bounds empty_polygon = (nan, nan, nan, nan)
  /\ get_bbox_from_multipolygon empty_polygon = [nan; nan; nan; nan]
  /\ float_le nan nan = false.
Proof.
  split; [ | repeat split ].
  intros Hclaim.
  destruct (Hclaim empty_polygon (or_introl eq_refl))
    as (b0 & b1 & b2 & b3 & Hbox & Hlat & _).
  injection Hbox as <- <- <- <-. discriminate.
Qed.

(** C3, amended.  For a geometry that has a coordinate,
    [get_bbox_from_multipolygon] returns
    [[min_lat, min_lon, max_lat, max_lon]], the bounds
    [(min_lon, min_lat, max_lon, max_lat)] reordered, with
    [min_lat <= max_lat] and [min_lon <= max_lon] (entry 0 against entry 2,
    entry 1 against entry 3); the box encloses every coordinate. *)
Theorem get_bbox_from_multipolygon_ordered (g : Geometry) :
  envelope_coords g <> [] ->
  exists min_lon min_lat max_lon max_lat : Q,
    bounds g = (Some min_lon, Some min_lat, Some max_lon, Some max_lat)
    /\ get_bbox_from_multipolygon g
       = [Some min_lat; Some min_lon; Some max_lat; Some max_lon]
    /\ (min_lat <= max_lat)%Q
    /\ (min_lon <= max_lon)%Q
    /\ forall c, In c (envelope_coords g) ->
                 (min_lon <= fst c <= max_lon)%Q
                 /\ (min_lat <= snd c <= max_lat)%Q.
Proof.
  intros Hne.
  unfold get_bbox_from_multipolygon, bounds.
  destruct (envelope_coords g) as [| c cs]; [ congruence | clear Hne ].
  exists (minimum (fst c) (map fst cs)), (minimum (snd c) (map snd cs)),
         (maximum (fst c) (map fst cs)), (maximum (snd c) (map snd cs)).
  split; [ reflexivity | split; [ reflexivity | ] ].
  split; [ | split ].
  - eapply Qle_trans; [ apply minimum_le_init | apply maximum_ge_init ].
  - eapply Qle_trans; [ apply minimum_le_init | apply maximum_ge_init ].
  - intros c' [<- | Hin]; repeat split;
      solve [ apply minimum_le_init
            | apply maximum_ge_init
            | apply minimum_le_in; first [ apply (in_map fst), Hin
                                         | apply (in_map snd), Hin ]
            | apply maximum_ge_in; first [ apply (in_map fst), Hin
                                         | apply (in_map snd), Hin ] ].
Qed.

Lemma get_bbox_from_multipolygon_ordered_witness :
  envelope_coords two_squares <> []
  /\ exists min_lon min_lat max_lon max_lat : Q,
       bounds two_squares
       = (Some min_lon, Some min_lat, Some max_lon, Some max_lat)
       /\ get_bbox_from_multipolygon two_squares
          = [Some min_lat; Some min_lon; Some max_lat; Some max_lon]
       /\ (min_lat <= max_lat)%Q
       /\ (min_lon <= max_lon)%Q
       /\ forall c, In c (envelope_coords two_squares) ->
                    (min_lon <= fst c <= max_lon)%Q
                    /\ (min_lat <= snd c <= max_lat)%Q.
Proof.
  split; [ discriminate | ].
  apply (get_bbox_from_multipolygon_ordered two_squares). discriminate.
Defined.

(** ** Merge *)

Lemma merge_left_matched {L R} (key_eqb : L -> R -> bool)
  (left : list L) (right : list R) (l : L) (r : R) :
  In l left -> In r right -> key_eqb l r = true ->
  In (l, Some r) (merge_left key_eqb left right).
Proof.
  intros Hl Hr Hkey.
  apply in_flat_map. exists l. split; [ exact Hl | ].
  assert (Hin : In r (filter (key_eqb l) right)) by (apply filter_In; auto).
  destruct (filter (key_eqb l) right) as [| m ms]; [ destruct Hin | ].
  apply (in_map (fun r => (l, Some r))), Hin.
Qed.

Lemma merge_left_unmatched {L R} (key_eqb : L -> R -> bool)
  (left : list L) (right : list R) (l : L) :
  In l left -> (forall r, In r right -> key_eqb l r = false) ->
  In (l, None) (merge_left key_eqb left right).
Proof.
  intros Hl Hnone.
  apply in_flat_map. exists l. split; [ exact Hl | ].
  destruct (filter (key_eqb l) right) as [| m ms] eqn:Hf; [ now left | ].
  assert (Hin : In m (filter (key_eqb l) right)) by (rewrite Hf; now left).
  apply filter_In in Hin as [Hin Hkey].
  rewrite (Hnone m Hin) in Hkey. discriminate.
Qed.

Lemma merge_left_sound {L R} (key_eqb : L -> R -> bool)
  (left : list L) (right : list R) (l : L) (o : option R) :
  In (l, o) (merge_left key_eqb left right) ->
  In l left
  /\ match o with
     | Some r => In r right /\ key_eqb l r = true
     | None => forall r, In r right -> key_eqb l r = false
     end.
Proof.
  intros Hin. apply in_flat_map in Hin as (l' & Hl & Hin).
  destruct (filter (key_eqb l') right) as [| m ms] eqn:Hf.
  - destruct Hin as [Heq | []]. injection Heq as -> <-.
    split; [ exact Hl | ]. intros r Hr.
    destruct (key_eqb l r) eqn:Hkey; [ | reflexivity ].
    assert (Hin : In r (filter (key_eqb l) right)) by (apply filter_In; auto).
    rewrite Hf in Hin. destruct Hin.
  - apply in_map_iff in Hin as (r & Heq & Hr). injection Heq as -> <-.
    split; [ exact Hl | ].
    rewrite <- Hf in Hr. now apply filter_In in Hr.
Qed.

Lemma merged_df_tables (gdf : list RegionRow)
  (weather_df : list WeatherRecord) :
  gdf <> [] -> weather_df <> [] ->
  merged_df gdf weather_df
  = Return (merge_left same_coordinate gdf weather_df).
Proof.
  intros Hgdf Hweather. unfold merged_df, latitude_longitude.
  destruct gdf; [ congruence | ]. destruct weather_df; [ congruence | ].
  reflexivity.
Qed.

(** C8, as stated, fails on the weather table without rows, which is what
    the fetcher returns when no request succeeds: built from no record,
    the table has no column, the join key is missing and the merge raises.
    There is no output for the boundary rows to appear in. *)
Lemma empty_weather_table_has_no_key :
  ~ unmatched_rows_kept
  /\ merged_df [khartoum; kassala] [] = Raise KeyError.
Proof.
  split; [ | reflexivity ].
  intros Hclaim.
  destruct (Hclaim [khartoum; kassala] [] kassala)
    as (merged & Hrun & _).
  - right. now left.
  - intros weather [].
  - discriminate.
Qed.

(** C8, amended.  When the weather table has at least one row, the merge
    returns the left join of the boundary table with the weather table on
    (latitude, longitude): a boundary row is joined to every weather row
    with its coordinate, and a boundary row whose coordinate is not in the
    weather table is kept once with empty weather fields; the output has
    nothing else. *)
Theorem merged_df_left_join (gdf : list RegionRow)
  (weather_df : list WeatherRecord) (row : RegionRow) :
  In row gdf ->
  weather_df <> [] ->
  exists merged,
    merged_df gdf weather_df = Return merged
    /\ (forall weather, In weather weather_df ->
                        same_coordinate row weather = true ->
                        In (row, Some weather) merged)
    /\ ((forall weather, In weather weather_df ->
                         same_coordinate row weather = false) ->
        In (row, None) merged)
    /\ (forall weather, In (row, Some weather) merged ->
                        In weather weather_df
                        /\ same_coordinate row weather = true)
    /\ (In (row, None) merged ->
        forall weather, In weather weather_df ->
                        same_coordinate row weather = false).
Proof.
  intros Hrow Hweather.
  assert (Hgdf : gdf <> []) by (intros ->; destruct Hrow).
  exists (merge_left same_coordinate gdf weather_df).
  split; [ now apply merged_df_tables | ].
  split; [ | split; [ | split ] ].
  - intros weather Hw Hkey. now apply merge_left_matched.
  - intros Hnone. now apply merge_left_unmatched.
  - intros weather Hin. now apply (merge_left_sound _ _ _ _ _ Hin).
  - intros Hin. now apply (merge_left_sound _ _ _ _ _ Hin).
Qed.

Lemma merged_df_left_join_witness :
  exists merged,
    merged_df [khartoum; kassala] [khartoum_week_1] = Return merged
    /\ In (khartoum, Some khartoum_week_1) merged
    /\ In (kassala, None) merged.
Proof.
  assert (Hweather : [khartoum_week_1] <> []) by discriminate.
  assert (Hkhartoum : In khartoum [khartoum; kassala]) by now left.
  assert (Hkassala : In kassala [khartoum; kassala]) by (right; now left).
  destruct (merged_df_left_join [khartoum; kassala] [khartoum_week_1]
              khartoum Hkhartoum Hweather)
    as (merged & Hrun & Hjoined & _).
  destruct (merged_df_left_join [khartoum; kassala] [khartoum_week_1]
              kassala Hkassala Hweather)
    as (merged' & Hrun' & _ & Hkept & _).
  exists merged. split; [ exact Hrun | ]. split.
  - apply Hjoined; [ now left | reflexivity ].
  - assert (Heq : merged' = merged) by congruence. rewrite <- Heq.
    apply Hkept. intros weather [<- | []]. reflexivity.
Defined.

(** ** Weather fetch loop *)

Section WeatherFacts.

Variable API_KEY : string.
Variable weather_api : WeatherParams -> Response.

Lemma while_current_date_step (lat lon : Q) (tz : string)
  (end_date current_date : Z) (weather_records : list WeatherRecord)
  (log : list Event) :
  while_current_date API_KEY weather_api lat lon tz end_date current_date
                     weather_records log
  = if current_date <=? end_date then
      match sample_date API_KEY weather_api lat lon tz current_date
                        weather_records log with
      | (Return weather_records', log') =>
          match add_days current_date 7 with
          | Return next =>
              while_current_date API_KEY weather_api lat lon tz end_date next
                                 weather_records' (log' ++ [EvSleep 1])
          | Raise e => (Raise e, log')
          end
      | (Raise e, log') => (Raise e, log')
      end
    else (Return weather_records, log).
Proof.
  funelim (while_current_date API_KEY weather_api lat lon tz end_date
             current_date weather_records log).
  all: repeat match goal with
              | H : (_ <=? _) = _ |- _ => rewrite H
              | H : sample_date _ _ _ _ _ _ _ _ = _ |- _ => rewrite H
              | H : add_days _ _ = _ |- _ => rewrite H
              end; reflexivity.
Qed.

Lemma get_daily_weather_data (lat lon : Q) (d : Date) (tz : string)
  (log : list Event) (j : JSON) :
  let params := mkWeatherParams lat lon d tz API_KEY "metric" in
  status_code (weather_api params) = 200 ->
  body (weather_api params) = Some j ->
  get_daily_weather API_KEY weather_api lat lon d tz log
  = (Return (WithData lat lon d j), log ++ [EvGet (GetWeather params)]).
Proof.
  intros params Hs Hb.
  unfold get_daily_weather, requests_get_weather, bind, emit, ret, lift, json.
  fold params. now rewrite Hs, Hb.
Qed.

Lemma get_daily_weather_error (lat lon : Q) (d : Date) (tz : string)
  (log : list Event) (fields : list (string * JSON)) :
  let params := mkWeatherParams lat lon d tz API_KEY "metric" in
  status_code (weather_api params) <> 200 ->
  body (weather_api params) = Some (JObj fields) ->
  get_daily_weather API_KEY weather_api lat lon d tz log
  = (Return (WithError lat lon d (server_message fields)),
     log ++ [EvGet (GetWeather params)]).
Proof.
  intros params Hs Hb.
  unfold get_daily_weather, requests_get_weather, bind, emit, ret, lift, json.
  fold params. apply Z.eqb_neq in Hs. now rewrite Hs, Hb.
Qed.

Lemma get_daily_weather_not_json (lat lon : Q) (d : Date) (tz : string)
  (log : list Event) :
  let params := mkWeatherParams lat lon d tz API_KEY "metric" in
  body (weather_api params) = None ->
  get_daily_weather API_KEY weather_api lat lon d tz log
  = (Raise JSONDecodeError, log ++ [EvGet (GetWeather params)]).
Proof.
  intros params Hb.
  unfold get_daily_weather, requests_get_weather, bind, emit, ret, lift, json.
  fold params. rewrite Hb. now destruct (status_code (weather_api params) =? 200).
Qed.

Lemma sample_date_error (lat lon : Q) (tz : string) (current_date : Z)
  (weather_records : list WeatherRecord) (log : list Event)
  (fields : list (string * JSON)) :
  let params := weather_request API_KEY lat lon tz current_date in
  status_code (weather_api params) <> 200 ->
  body (weather_api params) = Some (JObj fields) ->
  sample_date API_KEY weather_api lat lon tz current_date weather_records log
  = (Return weather_records,
     log ++ [EvGet (GetWeather params);
             EvPrint (ErrorFetching lat lon (strftime current_date)
                                    (server_message fields))]).
Proof.
  intros params Hs Hb. unfold sample_date, bind.
  rewrite (get_daily_weather_error _ _ _ _ _ fields Hs Hb).
  unfold print, emit, ret. now rewrite <- app_assoc.
Qed.

(** One iteration on a response that [get_daily_weather] handles: a single
    request, at most one new record, no exception. *)
Lemma sample_date_answers (lat lon : Q) (tz : string) (current_date : Z)
  (weather_records : list WeatherRecord) (log : list Event) :
  let params := weather_request API_KEY lat lon tz current_date in
  answers (weather_api params) = true ->
  exists weather_records' events,
    sample_date API_KEY weather_api lat lon tz current_date weather_records log
    = (Return weather_records',
       log ++ EvGet (GetWeather params) :: events)
    /\ requests events = [].
Proof.
  intros params Hans. unfold answers in Hans.
  destruct (body (weather_api params)) as [j |] eqn:Hb; [ | discriminate ].
  destruct (Z.eq_dec (status_code (weather_api params)) 200) as [Hs | Hs].
  - eexists _, []. split; [ | reflexivity ].
    unfold sample_date, bind.
    rewrite (get_daily_weather_data _ _ _ _ _ j Hs Hb). reflexivity.
  - apply Z.eqb_neq in Hs as Hs'. rewrite Hs' in Hans.
    destruct j; try discriminate.
    exists weather_records,
      [EvPrint (ErrorFetching lat lon (strftime current_date)
                              (server_message fields))].
    split; [ | reflexivity ].
    now rewrite (sample_date_error _ _ _ _ _ _ fields Hs Hb).
Qed.

End WeatherFacts.

Lemma requests_app (l1 l2 : list Event) :
  requests (l1 ++ l2) = requests l1 ++ requests l2.
Proof. apply flat_map_app. Qed.

Lemma range_len_weekly (start_date end_date : Z) :
  start_date <= end_date ->
  range_len start_date (end_date + 1) 7 = (end_date - start_date) / 7 + 1.
Proof.
  intros Hle. unfold range_len.
  replace (start_date <? end_date + 1) with true
    by (symmetry; apply Z.ltb_lt; lia).
  simpl. f_equal. f_equal. lia.
Qed.

Lemma range_len_weekly_empty (start_date end_date : Z) :
  end_date < start_date -> range_len start_date (end_date + 1) 7 = 0.
Proof.
  intros Hlt. unfold range_len.
  replace (start_date <? end_date + 1) with false
    by (symmetry; apply Z.ltb_ge; lia).
  reflexivity.
Qed.

Lemma range_len_weekly_next (start_date end_date : Z) :
  start_date <= end_date ->
  range_len (start_date + 7) (end_date + 1) 7
  = range_len start_date (end_date + 1) 7 - 1.
Proof.
  intros Hle. rewrite (range_len_weekly _ _ Hle).
  destruct (Z_le_gt_dec (start_date + 7) end_date) as [Hnext | Hlast].
  - rewrite (range_len_weekly _ _ Hnext).
    replace (end_date - start_date) with (end_date - (start_date + 7) + 1 * 7)
      by lia.
    rewrite Z.div_add by lia. lia.
  - rewrite range_len_weekly_empty by lia.
    rewrite Z.div_small by lia. reflexivity.
Qed.

Lemma sampled_dates_nil (start_date end_date : Z) :
  end_date < start_date -> sampled_dates start_date end_date = [].
Proof.
  intros Hlt. unfold sampled_dates.
  now rewrite range_len_weekly_empty.
Qed.

Lemma sampled_dates_cons (start_date end_date : Z) :
  start_date <= end_date ->
  sampled_dates start_date end_date
  = start_date :: sampled_dates (start_date + 7) end_date.
Proof.
  intros Hle. unfold sampled_dates.
  rewrite (range_len_weekly_next _ _ Hle).
  pose proof (range_len_weekly _ _ Hle) as Hlen.
  assert (Hpos : 0 <= (end_date - start_date) / 7)
    by (apply Z.div_pos; lia).
  replace (Z.to_nat (range_len start_date (end_date + 1) 7))
    with (S (Z.to_nat (range_len start_date (end_date + 1) 7 - 1)))
    by lia.
  simpl seq. simpl map. rewrite <- seq_shift, map_map.
  f_equal; [ lia | ].
  apply map_ext. intros k. lia.
Qed.

Lemma sampled_dates_length (start_date end_date : Z) :
  start_date <= end_date ->
  Z.of_nat (List.length (sampled_dates start_date end_date))
  = (end_date - start_date) / 7 + 1.
Proof.
  intros Hle. unfold sampled_dates.
  rewrite length_map, length_seq, range_len_weekly by exact Hle.
  assert (0 <= (end_date - start_date) / 7) by (apply Z.div_pos; lia).
  lia.
Qed.

Section WeatherLoop.

Variable API_KEY : string.
Variable weather_api : WeatherParams -> Response.

Hypothesis weather_api_answers :
  forall params, answers (weather_api params) = true.

Let request_at (lat lon : Q) (tz : string) (d : Z) : Request :=
  GetWeather (weather_request API_KEY lat lon tz d).

Lemma while_current_date_requests (lat lon : Q) (tz : string) (end_date : Z) :
  end_date + 7 <= MAXORDINAL ->
  forall (n : nat) (current_date : Z) (weather_records : list WeatherRecord)
         (log : list Event),
    1 <= current_date ->
    List.length (sampled_dates current_date end_date) = n ->
    exists weather_records' log',
      while_current_date API_KEY weather_api lat lon tz end_date current_date
                         weather_records log
      = (Return weather_records', log')
      /\ requests log'
         = requests log
           ++ map (request_at lat lon tz) (sampled_dates current_date end_date).
Proof.
  intros Hmax n.
  induction n as [| n IH]; intros current_date weather_records log Hpos Hn;
    rewrite while_current_date_step.
  - destruct (Z_le_gt_dec current_date end_date) as [Hle | Hgt].
    + rewrite (sampled_dates_cons _ _ Hle) in Hn. discriminate.
    + replace (current_date <=? end_date) with false
        by (symmetry; apply Z.leb_gt; lia).
      exists weather_records, log. split; [ reflexivity | ].
      rewrite sampled_dates_nil by lia. simpl. now rewrite app_nil_r.
  - destruct (Z_le_gt_dec current_date end_date) as [Hle | Hgt].
    2: { rewrite sampled_dates_nil in Hn by lia. discriminate. }
    replace (current_date <=? end_date) with true
      by (symmetry; apply Z.leb_le; lia).
    destruct (sample_date_answers API_KEY weather_api lat lon tz current_date
                weather_records log (weather_api_answers _))
      as (records1 & events & Hsample & Hevents).
    rewrite Hsample.
    unfold add_days.
    replace ((1 <=? current_date + 7) && (current_date + 7 <=? MAXORDINAL))
      with true
      by (symmetry; apply andb_true_iff; split;
          [ apply Z.leb_le | apply Z.leb_le ]; lia).
    rewrite (sampled_dates_cons _ _ Hle) in Hn. injection Hn as Hn.
    destruct (IH (current_date + 7) records1
                 ((log ++ EvGet (GetWeather
                                   (weather_request API_KEY lat lon tz
                                      current_date)) :: events)
                    ++ [EvSleep 1])
                 ltac:(lia) Hn)
      as (records2 & log2 & Hloop & Hreq).
    exists records2, log2. split; [ exact Hloop | ].
    rewrite Hreq, (sampled_dates_cons _ _ Hle).
    rewrite !requests_app. simpl requests at 2. rewrite Hevents.
    simpl. rewrite <- !app_assoc. reflexivity.
Qed.

Lemma for_rows_requests (start_date end_date : Z) :
  1 <= start_date ->
  end_date + 7 <= MAXORDINAL ->
  forall (rows : list RegionRow) (weather_records : list WeatherRecord)
         (log : list Event),
    exists weather_records' log',
      for_rows API_KEY weather_api rows start_date end_date weather_records log
      = (Return weather_records', log')
      /\ requests log'
         = requests log
           ++ flat_map (fun row =>
                          map (request_at (fst (centroid_coordinates row))
                                          (snd (centroid_coordinates row))
                                          "+02:00")
                              (sampled_dates start_date end_date)) rows.
Proof.
  intros Hpos Hmax rows.
  induction rows as [| row rows IH]; intros weather_records log; simpl.
  - exists weather_records, log. split; [ reflexivity | ].
    now rewrite app_nil_r.
  - unfold bind.
    destruct (while_current_date_requests
                (fst (centroid_coordinates row))
                (snd (centroid_coordinates row)) "+02:00" end_date Hmax
                _ start_date weather_records log Hpos eq_refl)
      as (records1 & log1 & Hloop & Hreq1).
    rewrite Hloop.
    destruct (IH records1 log1) as (records2 & log2 & Hrest & Hreq2).
    exists records2, log2. split; [ exact Hrest | ].
    rewrite Hreq2, Hreq1, <- app_assoc. reflexivity.
Qed.

End WeatherLoop.

Lemma days_before_month_nonneg (y m : Z) : 0 <= days_before_month y m.
Proof.
  unfold days_before_month.
  assert (0 <= nth (Z.to_nat (m - 1)) DAYS_BEFORE_MONTH 0).
  { unfold DAYS_BEFORE_MONTH.
    generalize (Z.to_nat (m - 1)). intros n.
    do 13 (destruct n as [| n]; simpl; try lia). }
  destruct ((2 <? m) && is_leap y); lia.
Qed.

Lemma days_before_year_nonneg (y : Z) : 1 <= y -> 0 <= days_before_year y.
Proof.
  intros Hy. unfold days_before_year.
  assert ((y - 1) / 100 <= (y - 1) / 4)
    by (apply Z.div_le_compat_l; lia).
  assert (0 <= (y - 1) / 400) by (apply Z.div_pos; lia).
  lia.
Qed.

Lemma strptime_positive (s : Date) (d : Z) : strptime s = Return d -> 1 <= d.
Proof.
  unfold strptime.
  destruct ((1 <=? year s) && (year s <=? MAXYEAR) && (1 <=? month s)
            && (month s <=? 12) && (1 <=? day s)
            && (day s <=? days_in_month (year s) (month s))) eqn:Hvalid;
    [ | discriminate ].
  intros [= <-].
  repeat (apply andb_true_iff in Hvalid as [Hvalid ?]).
  pose proof (days_before_year_nonneg (year s)).
  pose proof (days_before_month_nonneg (year s) (month s)).
  unfold ymd2ord. lia.
Qed.

Lemma sampled_dates_in_range (start_date end_date d : Z) :
  In d (sampled_dates start_date end_date) ->
  start_date <= d <= end_date /\ (d - start_date) mod 7 = 0.
Proof.
  unfold sampled_dates. intros Hin.
  apply in_map_iff in Hin as (k & <- & Hk). apply in_seq in Hk.
  destruct (Z_le_gt_dec start_date end_date) as [Hle | Hgt].
  - rewrite range_len_weekly in Hk by exact Hle.
    assert (0 <= (end_date - start_date) / 7) by (apply Z.div_pos; lia).
    pose proof (Z.mul_div_le (end_date - start_date) 7 ltac:(lia)).
    split; [ nia | ].
    replace (start_date + Z.of_nat k * 7 - start_date) with (Z.of_nat k * 7)
      by lia.
    apply Z.mod_mul. lia.
  - rewrite range_len_weekly_empty in Hk by lia. simpl in Hk. lia.
Qed.

(** C2, as stated, fails on the range of the notebook: from 2024-01-01 to
    2024-12-31 (366 days, ends 365 days apart) the loop issues 53 requests
    for a region, and the formula of the specification gives 54. *)
Lemma weekly_requests_2024_not_spec_formula :
  strptime (mkDate 2024 1 1) = Return 738886
  /\ strptime (mkDate 2024 12 31) = Return 739251
  /\ Z.of_nat (List.length (requests (snd year_2024_run))) = 53
  /\ Z.of_nat (List.length (requests (snd year_2024_run)))
     <> spec_request_count (739251 - 738886 + 1)
  /\ Z.of_nat (List.length (requests (snd year_2024_run)))
     <> spec_request_count (739251 - 738886).
Proof.
  vm_compute. repeat split; discriminate.
Qed.

(** C2, amended.  When both dates parse, the end date is at most
    9999-12-24 and the endpoint answers every request with JSON (an object
    when the status is not 200), [fetch_weather_for_geodataframe] returns,
    and its requests are, region after region, one per date [start],
    [start + 7], ... up to [end] included.  For [start <= end] that is
    [(end - start) / 7 + 1] requests per region, the ceiling of
    [days_in_range / 7] with both ends counted in [days_in_range]; 53 for a
    range of one year. *)
Theorem fetch_weather_weekly_requests
  (API_KEY : string) (weather_api : WeatherParams -> Response)
  (gdf : list RegionRow) (start_date end_date : Date) (s e : Z)
  (log : list Event) :
  strptime start_date = Return s ->
  strptime end_date = Return e ->
  e + 7 <= MAXORDINAL ->
  (forall params, answers (weather_api params) = true) ->
  (exists weather_records log',
     fetch_weather_for_geodataframe API_KEY weather_api gdf
       start_date end_date log
     = (Return weather_records, log')
     /\ requests log'
        = requests log
          ++ flat_map
               (fun row =>
                  map (fun d =>
                         GetWeather
                           (weather_request API_KEY
                              (fst (centroid_coordinates row))
                              (snd (centroid_coordinates row)) "+02:00" d))
                      (sampled_dates s e)) gdf)
  /\ (forall d, In d (sampled_dates s e) ->
                s <= d <= e /\ (d - s) mod 7 = 0)
  /\ (s <= e ->
      Z.of_nat (List.length (sampled_dates s e)) = (e - s) / 7 + 1
      /\ (e - s) / 7 + 1 = ceil_div (e - s + 1) 7)
  /\ (364 <= e - s <= 370 ->
      Z.of_nat (List.length (sampled_dates s e)) = 53).
Proof.
  intros Hs He Hmax Hans.
  split; [ | split; [ | split ] ].
  - unfold fetch_weather_for_geodataframe, bind, lift.
    rewrite Hs, He.
    apply for_rows_requests;
      [ exact Hans | apply (strptime_positive _ _ Hs) | exact Hmax ].
  - apply sampled_dates_in_range.
  - intros Hle. split; [ now apply sampled_dates_length | ].
    unfold ceil_div.
    replace (e - s + 1 + 7 - 1) with (e - s + 1 * 7) by lia.
    now rewrite Z.div_add by lia.
  - intros Hyear. rewrite sampled_dates_length by lia.
    assert (52 = (e - s) / 7); [ | lia ].
    apply Z.div_unique with (r := e - s - 7 * 52); lia.
Qed.

Lemma fetch_weather_weekly_requests_witness :
  exists weather_records log',
    fetch_weather_for_geodataframe "key" always_ok [khartoum]
      (mkDate 2024 1 1) (mkDate 2024 12 31) []
    = (Return weather_records, log')
    /\ List.length (requests log') = 53%nat.
Proof.
  destruct (fetch_weather_weekly_requests "key" always_ok [khartoum]
              (mkDate 2024 1 1) (mkDate 2024 12 31) 738886 739251 []
              eq_refl eq_refl ltac:(vm_compute; discriminate)
              (fun _ => eq_refl))
    as ((weather_records & log' & Hrun & Hreq) & _).
  exists weather_records, log'. split; [ exact Hrun | ].
  rewrite Hreq. reflexivity.
Defined.

(** ** Failed weather requests *)

(** C4, as stated, fails when the body of the error response is not JSON:
    [response.json()] raises, nothing is printed, and the exception leaves
    [fetch_weather_for_geodataframe] at the first request. *)
Lemma bad_gateway_aborts_the_run :
  ~ error_status_printed_and_skipped
  /\ fetch_weather_for_geodataframe "key" bad_gateway [khartoum]
       (mkDate 2024 1 1) (mkDate 2024 12 31) []
     = (Raise JSONDecodeError,
        [EvGet (GetWeather
                  (weather_request "key" (15 # 1) (32 # 1) "+02:00" 738886))]).
Proof.
  split; [ | reflexivity ].
  intros Hclaim.
  destruct (Hclaim "key"%string bad_gateway (15 # 1)%Q (32 # 1)%Q
                   "+02:00"%string 738886 [] [])
    as (error & Hrun).
  - simpl. lia.
  - vm_compute in Hrun. discriminate.
Qed.

(** C4, amended.  When the request of a (centroid, date) pair comes back
    with a status other than 200 (so with any status outside 200..299) and
    a body that is a JSON object, the iteration prints the body's
    ['message'] (or 'Failed to fetch data' when it has none), appends no
    record, leaves the records collected so far as they are and raises
    nothing; the loop then sleeps and goes on with the date seven days
    later (dates up to 9999-12-24). *)
Theorem weather_error_printed_and_skipped
  (API_KEY : string) (weather_api : WeatherParams -> Response)
  (lat lon : Q) (tz : string) (end_date current_date : Z)
  (weather_records : list WeatherRecord) (log : list Event)
  (fields : list (string * JSON)) :
  let params := weather_request API_KEY lat lon tz current_date in
  let log' :=
    log ++ [EvGet (GetWeather params);
            EvPrint (ErrorFetching lat lon (strftime current_date)
                                   (server_message fields))] in
  status_code (weather_api params) <> 200 ->
  body (weather_api params) = Some (JObj fields) ->
  1 <= current_date <= end_date ->
  current_date + 7 <= MAXORDINAL ->
  sample_date API_KEY weather_api lat lon tz current_date weather_records log
  = (Return weather_records, log')
  /\ while_current_date API_KEY weather_api lat lon tz end_date current_date
                        weather_records log
     = while_current_date API_KEY weather_api lat lon tz end_date
                          (current_date + 7) weather_records
                          (log' ++ [EvSleep 1]).
Proof.
  intros params log' Hstatus Hbody Hdate Hmax.
  pose proof (sample_date_error API_KEY weather_api lat lon tz current_date
                weather_records log fields Hstatus Hbody) as Hsample.
  split; [ exact Hsample | ].
  rewrite while_current_date_step, Hsample.
  replace (current_date <=? end_date) with true
    by (symmetry; apply Z.leb_le; lia).
  unfold add_days.
  replace ((1 <=? current_date + 7) && (current_date + 7 <=? MAXORDINAL))
    with true
    by (symmetry; apply andb_true_iff; split; apply Z.leb_le; lia).
  reflexivity.
Qed.

Lemma weather_error_printed_and_skipped_witness :
  sample_date "key" unauthorized (15 # 1) (32 # 1) "+02:00" 738886 [] []
  = (Return [],
     [EvGet (GetWeather
               (weather_request "key" (15 # 1) (32 # 1) "+02:00" 738886));
      EvPrint (ErrorFetching (15 # 1) (32 # 1) (mkDate 2024 1 1)
                             (JStr "Invalid API key"))])
  /\ while_current_date "key" unauthorized (15 # 1) (32 # 1) "+02:00"
                        739251 738886 [] []
     = while_current_date "key" unauthorized (15 # 1) (32 # 1) "+02:00"
         739251 (738886 + 7) []
         ([EvGet (GetWeather
                    (weather_request "key" (15 # 1) (32 # 1) "+02:00"
                       738886));
           EvPrint (ErrorFetching (15 # 1) (32 # 1) (mkDate 2024 1 1)
                                  (JStr "Invalid API key"))]
            ++ [EvSleep 1]).
Proof.
  apply (weather_error_printed_and_skipped "key" unauthorized
           (15 # 1) (32 # 1) "+02:00" 739251 738886 [] []
           [("cod"%string, JNum (401 # 1));
            ("message"%string, JStr "Invalid API key")]).
  - simpl. discriminate.
  - reflexivity.
  - lia.
  - vm_compute. discriminate.
Defined.

(** ** Chunks of node ids *)

Lemma range_len_from_zero (n k : Z) :
  0 <= n -> 0 < k ->
  let m := range_len 0 n k in
  0 <= m /\ n <= m * k /\ (0 < n -> (m - 1) * k < n) /\ m = ceil_div n k.
Proof.
  intros Hn Hk m. subst m. unfold range_len, ceil_div.
  replace (0 <? k) with true by (symmetry; apply Z.ltb_lt; lia).
  replace (k <? 0) with false by (symmetry; apply Z.ltb_ge; lia).
  destruct (Z.eq_dec n 0) as [-> | Hpos].
  - simpl. rewrite Z.div_small by lia. lia.
  - replace (0 <? n) with true by (symmetry; apply Z.ltb_lt; lia).
    simpl andb. cbv iota.
    replace (n - 0 - 1) with (n - 1) by lia.
    replace (n + k - 1) with (n - 1 + 1 * k) by lia.
    rewrite Z.div_add by lia.
    pose proof (Z.mul_div_le (n - 1) k Hk).
    pose proof (Z.mul_succ_div_gt (n - 1) k Hk).
    assert (0 <= (n - 1) / k) by (apply Z.div_pos; lia).
    repeat split; nia.
Qed.

Lemma chunks_by_index {A} (node_ids : list A) (chunk_size : Z) :
  0 < chunk_size ->
  chunks node_ids chunk_size
  = map (fun j => firstn (Z.to_nat chunk_size)
                         (skipn (j * Z.to_nat chunk_size) node_ids))
        (seq 0 (Z.to_nat (range_len 0 (Z.of_nat (List.length node_ids))
                                    chunk_size))).
Proof.
  intros Hk. unfold chunks, range.
  replace (chunk_size =? 0) with false by (symmetry; apply Z.eqb_neq; lia).
  rewrite map_map. apply map_ext. intros j. unfold slice.
  f_equal; [ f_equal; lia | ].
  f_equal. rewrite Z.add_0_l, Z2Nat.inj_mul, Nat2Z.id by lia. reflexivity.
Qed.

Lemma concat_index_chunks {A} (K : nat) :
  forall (m : nat) (l : list A),
    (List.length l <= m * K)%nat ->
    List.concat (map (fun j => firstn K (skipn (j * K) l)) (seq 0 m)) = l.
Proof.
  induction m as [| m IH]; intros l Hlen.
  - destruct l; [ reflexivity | simpl in Hlen; lia ].
  - simpl seq. simpl map. simpl List.concat.
    rewrite <- seq_shift, map_map.
    rewrite (map_ext _ (fun j => firstn K (skipn (j * K) (skipn K l)))).
    + rewrite IH; [ apply firstn_skipn | ].
      rewrite length_skipn. simpl in Hlen. lia.
    + intros j. rewrite skipn_skipn. f_equal. f_equal. simpl. lia.
Qed.


Section ChunkFacts.

Context {A : Type}.
Variable node_ids : list A.
Variable chunk_size : Z.
Hypothesis chunk_size_positive : 0 < chunk_size.

Let n : Z := Z.of_nat (List.length node_ids).
Let m : Z := range_len 0 n chunk_size.


Lemma chunks_concat : List.concat (chunks node_ids chunk_size) = node_ids.
Proof.
  rewrite chunks_by_index by assumption.
  apply concat_index_chunks.
  destruct (range_len_from_zero n chunk_size ltac:(subst n; lia)
              chunk_size_positive) as (Hm & Hcover & _ & _).
  fold n. subst n. nia.
Qed.


End ChunkFacts.

(** ** The dict of nodes *)

Lemma key_eqb_refl (k : Dict.Key) : Dict.key_eqb k k = true.
Proof.
  destruct k; simpl; [ reflexivity | | apply String.eqb_refl ].
  apply Qeq_bool_iff. reflexivity.
Qed.

Lemma key_eqb_sym (a b : Dict.Key) : Dict.key_eqb a b = Dict.key_eqb b a.
Proof.
  destruct a, b; simpl; try reflexivity.
  - destruct (Qeq_bool q q0) eqn:H1, (Qeq_bool q0 q) eqn:H2; try reflexivity.
    + apply Qeq_bool_iff in H1. symmetry in H1. apply Qeq_bool_iff in H1.
      congruence.
    + apply Qeq_bool_iff in H2. symmetry in H2. apply Qeq_bool_iff in H2.
      congruence.
  - apply String.eqb_sym.
Qed.

Lemma key_eqb_trans (a b c : Dict.Key) :
  Dict.key_eqb a b = true -> Dict.key_eqb b c = true ->
  Dict.key_eqb a c = true.
Proof.
  destruct a, b, c; simpl; try discriminate; try reflexivity.
  - rewrite !Qeq_bool_iff. intros H1 H2. now rewrite H1.
  - rewrite !String.eqb_eq. congruence.
Qed.

(** Reading a dict after an assignment. *)
Lemma lookup_set {V} (d : Dict.dict V) (k k' : Dict.Key) (v : V) :
  Dict.lookup (Dict.set d k v) k'
  = if Dict.key_eqb k k' then Some v else Dict.lookup d k'.
Proof.
  induction d as [| [k0 v0] d IH]; simpl; [ reflexivity | ].
  destruct (Dict.key_eqb k0 k) eqn:Hk0; simpl.
  - destruct (Dict.key_eqb k k') eqn:Hk.
    + now rewrite (key_eqb_trans _ _ _ Hk0 Hk).
    + destruct (Dict.key_eqb k0 k') eqn:Hk0'; [ | reflexivity ].
      rewrite key_eqb_sym in Hk0.
      rewrite (key_eqb_trans _ _ _ Hk0 Hk0') in Hk. discriminate.
  - rewrite IH.
    destruct (Dict.key_eqb k0 k') eqn:Hk0'; [ | reflexivity ].
    destruct (Dict.key_eqb k k') eqn:Hk; [ | reflexivity ].
    rewrite key_eqb_sym in Hk.
    rewrite (key_eqb_trans _ _ _ Hk0' Hk) in Hk0. discriminate.
Qed.

Lemma find_app {A} (p : A -> bool) (l1 l2 : list A) :
  find p (l1 ++ l2)
  = match find p l1 with Some a => Some a | None => find p l2 end.
Proof.
  induction l1 as [| a l1 IH]; simpl; [ reflexivity | ].
  now destruct (p a).
Qed.

Lemma lookup_fold_set {V} (entries : list (Dict.Key * V)) :
  forall (d : Dict.dict V) (k : Dict.Key),
    Dict.lookup (fold_left (fun d e => Dict.set d (fst e) (snd e)) entries d) k
    = match find (fun e => Dict.key_eqb (fst e) k) (rev entries) with
      | Some e => Some (snd e)
      | None => Dict.lookup d k
      end.
Proof.
  induction entries as [| e entries IH]; intros d k; simpl; [ reflexivity | ].
  rewrite IH, find_app, lookup_set. simpl.
  destruct (find _ (rev entries)); [ reflexivity | ].
  now destruct (Dict.key_eqb (fst e) k).
Qed.

Lemma nodes_dict_entries (elements : list JSON) :
  forall (entries : list (Dict.Key * (JSON * JSON)))
         (nodes : Dict.dict (JSON * JSON)),
    Forall2 (fun element entry => node_entry element = Return entry)
            elements entries ->
    nodes_dict elements nodes
    = Return (fold_left (fun d e => Dict.set d (fst e) (snd e)) entries nodes).
Proof.
  induction elements as [| element elements IH];
    intros entries nodes Hall; inversion Hall as [| ? entry ? entries' He Hes];
    subst; simpl; [ reflexivity | ].
  unfold node_entry in He.
  destruct (getitem element "id") as [id |]; simpl in *; [ | discriminate ].
  destruct (getitem element "lat") as [lat |]; simpl in *; [ | discriminate ].
  destruct (getitem element "lon") as [lon |]; simpl in *; [ | discriminate ].
  destruct (Dict.hashable id) as [key |]; simpl in *; [ | discriminate ].
  injection He as <-. now apply IH.
Qed.

Lemma Qeq_bool_inject_Z (a b : Z) :
  Qeq_bool (inject_Z a) (inject_Z b) = (a =? b).
Proof. unfold Qeq_bool, inject_Z. simpl. now rewrite !Z.mul_1_r. Qed.




(** ** Node lookups *)

Section NodeLookups.

Variable overpass_api : OverpassQuery -> Response.

Lemma for_chunks_cons (node_ids : list Z) (chunk_size i : Z) (rest : list Z)
  (coordinates : list (JSON * JSON)) (log : list Event) :
  let chunk := slice node_ids i (i + chunk_size) in
  let response := overpass_api (NodesQuery chunk) in
  for_chunks overpass_api node_ids chunk_size (i :: rest) coordinates log
  = if status_code response =? 200 then
      match parse_nodes response with
      | Return nodes =>
          for_chunks overpass_api node_ids chunk_size rest
                     (coordinates ++ found_coordinates nodes chunk)
                     (log ++ chunk_query_events chunk)
      | Raise e => (Raise e, log ++ chunk_query_events chunk)
      end
    else
      for_chunks overpass_api node_ids chunk_size rest coordinates
                 (log ++ chunk_query_events chunk
                      ++ [EvPrint (FailedNodes chunk (status_code response))]).
Proof.
  intros chunk response. simpl for_chunks. fold chunk.
  unfold bind, print, emit, requests_get_overpass, bind, emit, ret, lift.
  fold response. rewrite <- !app_assoc. simpl app.
  unfold chunk_query_events, parse_nodes.
  destruct (status_code response =? 200).
  - destruct (json response) as [node_data |]; simpl; [ | reflexivity ].
    destruct (obind (getitem node_data "elements") iter) as [elements |];
      simpl; [ | reflexivity ].
    destruct (nodes_dict elements []); reflexivity.
  - rewrite <- ?app_assoc. reflexivity.
Qed.





End NodeLookups.


Section FetchNodeCoordinates.

Variable overpass_api : OverpassQuery -> Response.



End FetchNodeCoordinates.







(** 120 ids make three requests, of 50, 50 and 20 ids. *)
Example fetch_node_coordinates_120_ids :
  let node_ids := map Z.of_nat (seq 1 120) in
  let run :=
    fetch_node_coordinates knows_1_and_3 node_ids default_chunk_size [] in
  map (fun request =>
         match request with
         | GetOverpass (NodesQuery chunk) => List.length chunk
         | _ => 0%nat
         end) (requests (snd run))
  = [50; 50; 20]%nat
  /\ fst run = Return [(JNum (155 # 10), JNum (325 # 10));
                       (JNum (156 # 10), JNum (326 # 10))].
Proof. vm_compute. split; reflexivity. Qed.

(** ** Overpass failures *)

Lemma get_osm_data_from_bbox_by_status
  (overpass_api : OverpassQuery -> Response) (b0 b1 b2 b3 : float)
  (log : list Event) :
  let response := overpass_api (BBoxQuery b0 b1 b2 b3) in
  let log' := log ++ [EvGet (GetOverpass (BBoxQuery b0 b1 b2 b3))] in
  get_osm_data_from_bbox overpass_api [b0; b1; b2; b3] log
  = if status_code response =? 200 then
      (obind (json response)
             (fun osm_data => dict_get osm_data "elements" (JArr [])), log')
    else if (400 <=? status_code response) && (status_code response <? 600)
    then (Raise (HTTPError (status_code response)), log')
    else (Return JNull, log').
Proof.
  intros response log'.
  unfold get_osm_data_from_bbox, bind, lift, index, requests_get_overpass,
    bind, emit, ret, raise_for_status.
  simpl nth_error. cbv iota. fold response. fold log'.
  destruct (status_code response =? 200).
  - destruct (json response); reflexivity.
  - destruct ((400 <=? status_code response) && (status_code response <? 600));
      reflexivity.
Qed.

(** C5, as stated, fails on a status that is neither 200 nor an error
    status (here 204): [raise_for_status] raises nothing, the function
    returns [None], and the run over the regions goes on and stores [None]
    for each of them. *)
Lemma no_content_returns_none :
  ~ other_status_raises
  /\ get_bbox_from_multipolygon (geometry north_kordofan)
     = [Some 0; Some 29; Some 1; Some (29 + 1)]%Q
  /\ get_osm_data_from_bbox no_content
       (get_bbox_from_multipolygon (geometry north_kordofan)) []
     = (Return JNull,
        [EvGet (GetOverpass (BBoxQuery (Some 0) (Some 29) (Some 1)
                                       (Some (29 + 1)))%Q)])
  /\ fst (osm_loop no_content [north_kordofan; river_nile] [] [])
     = (Return tt, [JNull; JNull])
  /\ List.length
       (requests (snd (osm_loop no_content [north_kordofan; river_nile] [] [])))
     = 2%nat.
Proof.
  split; [ | repeat split ].
  intros Hclaim.
  destruct (Hclaim no_content (Some 0%Q) (Some 29%Q) (Some 1%Q) (Some 30%Q) [])
    as (e & Hraise).
  - simpl. discriminate.
  - vm_compute in Hraise. discriminate.
Qed.

(** C5, amended.  For every bounding box, [get_osm_data_from_bbox] returns
    the ['elements'] of the response (the empty list when it has none) when
    the status is 200 and the body is a JSON object, and raises an HTTP
    error when the status is an error status, 400 to 599: the exception
    leaves the loop over the regions, which stops at that region and adds
    no entry for it. *)
Theorem get_osm_data_from_bbox_elements_or_raise
  (overpass_api : OverpassQuery -> Response) (b0 b1 b2 b3 : float)
  (log : list Event) :
  let query := BBoxQuery b0 b1 b2 b3 in
  let response := overpass_api query in
  let log' := log ++ [EvGet (GetOverpass query)] in
  (status_code response = 200 ->
   forall fields,
     body response = Some (JObj fields) ->
     get_osm_data_from_bbox overpass_api [b0; b1; b2; b3] log
     = (Return (elements_of fields), log'))
  /\ (400 <= status_code response < 600 ->
      get_osm_data_from_bbox overpass_api [b0; b1; b2; b3] log
      = (Raise (HTTPError (status_code response)), log')
      /\ forall row rest osm_data,
           get_bbox_from_multipolygon (geometry row) = [b0; b1; b2; b3] ->
           osm_loop overpass_api (row :: rest) osm_data log
           = (Raise (HTTPError (status_code response)), osm_data, log')).
Proof.
  intros query response log'.
  pose proof (get_osm_data_from_bbox_by_status overpass_api b0 b1 b2 b3 log)
    as Hrun.
  cbv zeta in Hrun. fold query response log' in Hrun.
  split.
  - intros Hok fields Hbody. rewrite Hrun, Hok. unfold json.
    now rewrite Hbody.
  - intros Herr.
    assert (Hraise : get_osm_data_from_bbox overpass_api [b0; b1; b2; b3] log
                     = (Raise (HTTPError (status_code response)), log')).
    { rewrite Hrun.
      replace (status_code response =? 200) with false
        by (symmetry; apply Z.eqb_neq; lia).
      replace ((400 <=? status_code response) && (status_code response <? 600))
        with true
        by (symmetry; apply andb_true_iff; split;
            [ apply Z.leb_le | apply Z.ltb_lt ]; lia).
      reflexivity. }
    split; [ exact Hraise | ].
    intros row rest osm_data Hbbox. simpl osm_loop.
    now rewrite Hbbox, Hraise.
Qed.

Lemma get_osm_data_from_bbox_elements_or_raise_witness :
  get_osm_data_from_bbox one_way [Some 0; Some 29; Some 1; Some 30]%Q []
  = (Return (JArr [JObj [("type"%string, JStr "way");
                         ("id"%string, JNum (4 # 1))]]),
     [EvGet (GetOverpass (BBoxQuery (Some 0) (Some 29) (Some 1) (Some 30))%Q)])
  /\ osm_loop too_many_requests [north_kordofan; river_nile] [] []
     = (Raise (HTTPError 429), [],
        [EvGet (GetOverpass (BBoxQuery (Some 0) (Some 29) (Some 1)
                                       (Some (29 + 1)))%Q)]).
Proof.
  split.
  - exact (proj1 (get_osm_data_from_bbox_elements_or_raise one_way
                    (Some 0%Q) (Some 29%Q) (Some 1%Q) (Some 30%Q) [])
                 eq_refl
                 [("version"%string, JNum (6 # 10));
                  ("elements"%string,
                   JArr [JObj [("type"%string, JStr "way");
                               ("id"%string, JNum (4 # 1))]])]
                 eq_refl).
  - apply (proj2 (get_osm_data_from_bbox_elements_or_raise too_many_requests
                    (Some 0%Q) (Some 29%Q) (Some 1%Q) (Some (29 + 1)%Q) []));
      [ simpl; lia | reflexivity ].
Defined.

(** * Further properties *)

(** ** Runs of the weather loop *)

Section WeatherRuns.

Variable API_KEY : string.
Variable weather_api : WeatherParams -> Response.

Lemma sample_date_run (lat lon : Q) (tz : string) (current_date : Z)
  (weather_records : list WeatherRecord) (log : list Event) :
  answers (weather_api (weather_request API_KEY lat lon tz current_date))
  = true ->
  sample_date API_KEY weather_api lat lon tz current_date weather_records log
  = (Return (weather_records
             ++ pair_records API_KEY weather_api lat lon tz current_date),
     log ++ EvGet (GetWeather
                     (weather_request API_KEY lat lon tz current_date))
         :: map EvPrint
                (pair_messages API_KEY weather_api lat lon tz current_date)).
Proof.
  intros Hans. unfold answers in Hans. unfold pair_records, pair_messages.
  set (params := weather_request API_KEY lat lon tz current_date) in *.
  destruct (body (weather_api params)) as [j |] eqn:Hb; [ | discriminate ].
  destruct (Z.eq_dec (status_code (weather_api params)) 200) as [Hs | Hs].
  - unfold sample_date, bind.
    rewrite (get_daily_weather_data API_KEY weather_api lat lon
               (strftime current_date) tz log j Hs Hb).
    rewrite Hs. reflexivity.
  - apply Z.eqb_neq in Hs as Hs'. rewrite Hs' in Hans |- *.
    destruct j; try discriminate.
    rewrite (sample_date_error API_KEY weather_api lat lon tz current_date
               weather_records log fields Hs Hb).
    now rewrite app_nil_r.
Qed.

Hypothesis weather_api_answers :
  forall params, answers (weather_api params) = true.

Lemma while_current_date_run (lat lon : Q) (tz : string) (end_date : Z) :
  end_date + 7 <= MAXORDINAL ->
  forall (n : nat) (current_date : Z) (weather_records : list WeatherRecord)
         (log : list Event),
    1 <= current_date ->
    List.length (sampled_dates current_date end_date) = n ->
    while_current_date API_KEY weather_api lat lon tz end_date current_date
                       weather_records log
    = (Return (weather_records
               ++ flat_map (pair_records API_KEY weather_api lat lon tz)
                           (sampled_dates current_date end_date)),
       log ++ flat_map (pair_events API_KEY weather_api lat lon tz)
                       (sampled_dates current_date end_date)).
Proof.
  intros Hmax n.
  induction n as [| n IH]; intros current_date weather_records log Hpos Hn;
    rewrite while_current_date_step.
  - destruct (Z_le_gt_dec current_date end_date) as [Hle | Hgt].
    + rewrite (sampled_dates_cons _ _ Hle) in Hn. discriminate.
    + replace (current_date <=? end_date) with false
        by (symmetry; apply Z.leb_gt; lia).
      rewrite sampled_dates_nil by lia. simpl. now rewrite !app_nil_r.
  - destruct (Z_le_gt_dec current_date end_date) as [Hle | Hgt].
    2: { rewrite sampled_dates_nil in Hn by lia. discriminate. }
    replace (current_date <=? end_date) with true
      by (symmetry; apply Z.leb_le; lia).
    rewrite (sample_date_run lat lon tz current_date weather_records log
               (weather_api_answers _)).
    unfold add_days.
    replace ((1 <=? current_date + 7) && (current_date + 7 <=? MAXORDINAL))
      with true
      by (symmetry; apply andb_true_iff; split; apply Z.leb_le; lia).
    rewrite (sampled_dates_cons _ _ Hle) in Hn |- *. injection Hn as Hn.
    rewrite (IH (current_date + 7) _ _ ltac:(lia) Hn).
    cbn [flat_map]. unfold pair_events at 2.
    rewrite <- !app_assoc. cbn [app]. rewrite <- !app_assoc. reflexivity.
Qed.

Lemma for_rows_run (start_date end_date : Z) :
  1 <= start_date ->
  end_date + 7 <= MAXORDINAL ->
  forall (rows : list RegionRow) (weather_records : list WeatherRecord)
         (log : list Event),
    for_rows API_KEY weather_api rows start_date end_date weather_records log
    = (Return (weather_records
               ++ flat_map (region_records API_KEY weather_api
                              (sampled_dates start_date end_date)) rows),
       log ++ flat_map (region_events API_KEY weather_api
                          (sampled_dates start_date end_date)) rows).
Proof.
  intros Hpos Hmax rows.
  induction rows as [| row rows IH]; intros weather_records log; simpl.
  - unfold ret. now rewrite !app_nil_r.
  - unfold bind.
    rewrite (while_current_date_run _ _ _ end_date Hmax _ start_date
               weather_records log Hpos eq_refl).
    rewrite IH, <- !app_assoc. reflexivity.
Qed.

Lemma fetch_weather_run (gdf : list RegionRow) (start_date end_date : Date)
  (s e : Z) (log : list Event) :
  strptime start_date = Return s ->
  strptime end_date = Return e ->
  e + 7 <= MAXORDINAL ->
  fetch_weather_for_geodataframe API_KEY weather_api gdf start_date end_date
                                 log
  = (Return (flat_map (region_records API_KEY weather_api
                         (sampled_dates s e)) gdf),
     log ++ flat_map (region_events API_KEY weather_api (sampled_dates s e))
                     gdf).
Proof.
  intros Hs He Hmax.
  unfold fetch_weather_for_geodataframe, bind, lift. rewrite Hs, He.
  now rewrite (for_rows_run s e (strptime_positive _ _ Hs) Hmax gdf [] log).
Qed.

End WeatherRuns.

Lemma pacing_app (l1 l2 : list Event) :
  pacing (l1 ++ l2) = pacing l1 ++ pacing l2.
Proof. apply flat_map_app. Qed.

Lemma printed_app (l1 l2 : list Event) :
  printed (l1 ++ l2) = printed l1 ++ printed l2.
Proof. apply flat_map_app. Qed.

Lemma sleeps_app (l1 l2 : list Event) :
  sleeps (l1 ++ l2) = sleeps l1 ++ sleeps l2.
Proof. apply flat_map_app. Qed.

Lemma pacing_prints (messages : list Message) :
  pacing (map EvPrint messages) = [].
Proof. induction messages; simpl; auto. Qed.

Lemma requests_prints (messages : list Message) :
  requests (map EvPrint messages) = [].
Proof. induction messages; simpl; auto. Qed.

Lemma printed_prints (messages : list Message) :
  printed (map EvPrint messages) = messages.
Proof. induction messages; simpl; congruence. Qed.

Lemma flat_map_constant_length {A B} (f : A -> list B) (l : list A) (k : nat) :
  (forall a, In a l -> List.length (f a) = k) ->
  List.length (flat_map f l) = (List.length l * k)%nat.
Proof.
  induction l as [| a l IH]; intros Hf; simpl; [ reflexivity | ].
  rewrite length_app, IH, (Hf a (or_introl eq_refl)); [ reflexivity | ].
  intros b Hb. apply Hf. now right.
Qed.

Lemma flat_map_flat_map {A B C} (f : A -> list B) (g : B -> list C)
  (l : list A) :
  flat_map g (flat_map f l) = flat_map (fun a => flat_map g (f a)) l.
Proof.
  induction l as [| a l IH]; simpl; [ reflexivity | ].
  now rewrite flat_map_app, IH.
Qed.

Section WeatherRunFacts.

Variable API_KEY : string.
Variable weather_api : WeatherParams -> Response.

Lemma pacing_pair_events (lat lon : Q) (tz : string) (d : Z) :
  pacing (pair_events API_KEY weather_api lat lon tz d) = [None; Some 1].
Proof.
  unfold pair_events. cbn [pacing flat_map app].
  change (flat_map _ ?l) with (pacing l).
  now rewrite pacing_app, pacing_prints.
Qed.

Lemma requests_pair_events (lat lon : Q) (tz : string) (d : Z) :
  requests (pair_events API_KEY weather_api lat lon tz d)
  = [GetWeather (weather_request API_KEY lat lon tz d)].
Proof.
  unfold pair_events. cbn [requests flat_map app].
  change (flat_map _ ?l) with (requests l).
  now rewrite requests_app, requests_prints.
Qed.

Lemma printed_pair_events (lat lon : Q) (tz : string) (d : Z) :
  printed (pair_events API_KEY weather_api lat lon tz d)
  = pair_messages API_KEY weather_api lat lon tz d.
Proof.
  unfold pair_events. cbn [printed flat_map app].
  change (flat_map _ ?l) with (printed l).
  rewrite printed_app, printed_prints. simpl. apply app_nil_r.
Qed.

Lemma pair_outcome_one (lat lon : Q) (tz : string) (d : Z) :
  answers (weather_api (weather_request API_KEY lat lon tz d)) = true ->
  (List.length (pair_records API_KEY weather_api lat lon tz d)
   + List.length (pair_messages API_KEY weather_api lat lon tz d) = 1)%nat.
Proof.
  unfold answers, pair_records, pair_messages.
  destruct (body (weather_api (weather_request API_KEY lat lon tz d)))
    as [j |]; [ | discriminate ].
  destruct (status_code (weather_api (weather_request API_KEY lat lon tz d))
            =? 200); [ reflexivity | ].
  destruct j; intros; try discriminate; reflexivity.
Qed.

End WeatherRunFacts.

Lemma flat_map_repeat_concat {A B} (c : list B) (l : list A) (m : nat) :
  flat_map (fun _ => List.concat (repeat c m)) l
  = List.concat (repeat c (List.length l * m)).
Proof.
  induction l as [| a l IH]; simpl; [ reflexivity | ].
  now rewrite IH, repeat_app, concat_app.
Qed.

Lemma flat_map_lengths_add {A B C D} (f : A -> list B) (g : A -> list C)
  (h : A -> list D) (l : list A) :
  (forall a, (List.length (f a) + List.length (g a)
              = List.length (h a))%nat) ->
  (List.length (flat_map f l) + List.length (flat_map g l)
   = List.length (flat_map h l))%nat.
Proof.
  intros Hfg. induction l as [| a l IH]; simpl; [ reflexivity | ].
  rewrite !length_app. specialize (Hfg a). lia.
Qed.

(** X1.  In a run where both dates parse, the end date is at most
    9999-12-24 and every response is one that the loop handles, each
    request is followed by a pause of one second before the next request,
    whatever its outcome: the traffic of the run is request, pause,
    request, pause, ... once per region and sampled date. *)
Theorem fetch_weather_pause_after_each_request
  (API_KEY : string) (weather_api : WeatherParams -> Response)
  (gdf : list RegionRow) (start_date end_date : Date) (s e : Z)
  (log : list Event) :
  strptime start_date = Return s ->
  strptime end_date = Return e ->
  e + 7 <= MAXORDINAL ->
  (forall params, answers (weather_api params) = true) ->
  exists weather_records events,
    fetch_weather_for_geodataframe API_KEY weather_api gdf
      start_date end_date log
    = (Return weather_records, log ++ events)
    /\ pacing events
       = List.concat
           (repeat [None; Some 1]
                   (List.length gdf * List.length (sampled_dates s e))).
Proof.
  intros Hs He Hmax Hans.
  eexists _, _. split.
  - apply (fetch_weather_run API_KEY weather_api Hans gdf _ _ s e log
             Hs He Hmax).
  - unfold pacing at 1. rewrite flat_map_flat_map.
    rewrite <- flat_map_repeat_concat.
    apply flat_map_ext. intros row. unfold region_events.
    change (flat_map _ (flat_map ?f ?l)) with (pacing (flat_map f l)).
    unfold pacing at 1. rewrite flat_map_flat_map.
    rewrite (flat_map_ext _ (fun _ => [None; Some 1]))
      by (intros d; apply pacing_pair_events).
    generalize (sampled_dates s e). intros dates.
    induction dates as [| d dates IH]; simpl; [ reflexivity | ].
    now rewrite IH.
Qed.

Lemma fetch_weather_pause_after_each_request_witness :
  exists weather_records events,
    fetch_weather_for_geodataframe "key" first_half_only [khartoum; kassala]
      (mkDate 2024 1 1) (mkDate 2024 1 31) []
    = (Return weather_records, [] ++ events)
    /\ pacing events
       = [None; Some 1; None; Some 1; None; Some 1; None; Some 1; None; Some 1;
          None; Some 1; None; Some 1; None; Some 1; None; Some 1; None; Some 1].
Proof.
  apply (fetch_weather_pause_after_each_request "key" first_half_only
           [khartoum; kassala] (mkDate 2024 1 1) (mkDate 2024 1 31)
           738886 738916 [] eq_refl eq_refl).
  - vm_compute. discriminate.
  - intros params. unfold first_half_only.
    destruct (Dates.day (Net.date params) <=? 15); reflexivity.
Defined.

(** X2.  In such a run every request ends in exactly one of two ways: a
    record appended to the table or an error message printed.  So the
    records and the messages together are as many as the requests. *)
Theorem fetch_weather_record_or_message
  (API_KEY : string) (weather_api : WeatherParams -> Response)
  (gdf : list RegionRow) (start_date end_date : Date) (s e : Z)
  (log : list Event) :
  strptime start_date = Return s ->
  strptime end_date = Return e ->
  e + 7 <= MAXORDINAL ->
  (forall params, answers (weather_api params) = true) ->
  exists weather_records events,
    fetch_weather_for_geodataframe API_KEY weather_api gdf
      start_date end_date log
    = (Return weather_records, log ++ events)
    /\ (List.length weather_records + List.length (printed events)
        = List.length (requests events))%nat
    /\ List.length (requests events)
       = (List.length gdf * List.length (sampled_dates s e))%nat.
Proof.
  intros Hs He Hmax Hans.
  eexists _, _. split; [ | split ].
  - apply (fetch_weather_run API_KEY weather_api Hans gdf _ _ s e log
             Hs He Hmax).
  - unfold printed, requests. rewrite !flat_map_flat_map.
    apply flat_map_lengths_add. intros row. unfold region_records.
    unfold region_events. rewrite !flat_map_flat_map.
    apply flat_map_lengths_add. intros d.
    change (flat_map _ (pair_events ?k ?a ?x ?y ?z ?d'))
      with (printed (pair_events k a x y z d')) at 1.
    change (flat_map _ (pair_events ?k ?a ?x ?y ?z ?d'))
      with (requests (pair_events k a x y z d')).
    rewrite printed_pair_events, requests_pair_events.
    apply pair_outcome_one, Hans.
  - unfold requests. rewrite flat_map_flat_map.
    apply flat_map_constant_length. intros row _.
    unfold region_events. rewrite flat_map_flat_map.
    rewrite <- (Nat.mul_1_r (List.length (sampled_dates s e))).
    apply flat_map_constant_length. intros d _.
    change (flat_map _ (pair_events ?k ?a ?x ?y ?z ?d'))
      with (requests (pair_events k a x y z d')).
    now rewrite requests_pair_events.
Qed.

Lemma fetch_weather_record_or_message_witness :
  exists weather_records events,
    fetch_weather_for_geodataframe "key" first_half_only [khartoum; kassala]
      (mkDate 2024 1 1) (mkDate 2024 1 31) []
    = (Return weather_records, [] ++ events)
    /\ (List.length weather_records + List.length (printed events)
        = List.length (requests events))%nat
    /\ List.length (requests events) = 10%nat.
Proof.
  apply (fetch_weather_record_or_message "key" first_half_only
           [khartoum; kassala] (mkDate 2024 1 1) (mkDate 2024 1 31)
           738886 738916 [] eq_refl eq_refl).
  - vm_compute. discriminate.
  - intros params. unfold first_half_only.
    destruct (Dates.day (Net.date params) <=? 15); reflexivity.
Defined.

Lemma flat_map_all_nil {A B} (f : A -> list B) (l : list A) :
  (forall a, f a = []) -> flat_map f l = [].
Proof.
  intros Hf. induction l as [| a l IH]; simpl; [ reflexivity | ].
  now rewrite Hf, IH.
Qed.

(** X3.  When both dates parse, the end date is at most 9999-12-24 and
    the endpoint answers every request with status 200 and JSON, the table
    that [fetch_weather_for_geodataframe] returns has exactly one row per
    region and sampled date, the regions in the order of the
    boundary table and, within a region, the dates in ascending order; each
    row carries the centroid of the region, the time zone '+02:00', the
    date and the body of the response, untouched.  Nothing is printed. *)
Theorem fetch_weather_all_ok
  (API_KEY : string) (weather_api : WeatherParams -> Response)
  (gdf : list RegionRow) (start_date end_date : Date) (s e : Z)
  (log : list Event) :
  strptime start_date = Return s ->
  strptime end_date = Return e ->
  e + 7 <= MAXORDINAL ->
  (forall params, status_code (weather_api params) = 200
                  /\ body (weather_api params) <> None) ->
  let record row d :=
    let lat := fst (centroid_coordinates row) in
    let lon := snd (centroid_coordinates row) in
    mkWeatherRecord lat lon "+02:00" (strftime d)
      (payload (weather_api (weather_request API_KEY lat lon "+02:00" d))) in
  exists events,
    fetch_weather_for_geodataframe API_KEY weather_api gdf
      start_date end_date log
    = (Return (flat_map (fun row => map (record row) (sampled_dates s e)) gdf),
       log ++ events)
    /\ printed events = []
    /\ List.length
         (flat_map (fun row => map (record row) (sampled_dates s e)) gdf)
       = (List.length gdf * List.length (sampled_dates s e))%nat.
Proof.
  intros Hs He Hmax Hok record.
  assert (Hans : forall params, answers (weather_api params) = true).
  { intros params. destruct (Hok params) as [Hstatus Hbody].
    unfold answers. rewrite Hstatus.
    destruct (body (weather_api params)) as [j |];
      [ destruct j; reflexivity | congruence ]. }
  eexists. split; [ | split ].
  - rewrite (fetch_weather_run API_KEY weather_api Hans gdf _ _ s e log
               Hs He Hmax).
    f_equal. f_equal. apply flat_map_ext. intros row.
    unfold region_records.
    generalize (sampled_dates s e). intros dates.
    induction dates as [| d dates IH]; cbn [flat_map map]; [ reflexivity | ].
    rewrite IH. unfold pair_records, record, payload.
    destruct (Hok (weather_request API_KEY (fst (centroid_coordinates row))
                     (snd (centroid_coordinates row)) "+02:00" d))
      as [Hstatus Hbody].
    rewrite Hstatus.
    destruct (body (weather_api _)); [ reflexivity | congruence ].
  - unfold printed. rewrite flat_map_flat_map.
    apply flat_map_all_nil. intros row. unfold region_events.
    rewrite flat_map_flat_map. apply flat_map_all_nil. intros d.
    change (flat_map _ (pair_events ?k ?a ?x ?y ?z ?d'))
      with (printed (pair_events k a x y z d')).
    rewrite printed_pair_events. unfold pair_messages.
    destruct (Hok (weather_request API_KEY (fst (centroid_coordinates row))
                     (snd (centroid_coordinates row)) "+02:00" d))
      as [Hstatus _].
    now rewrite Hstatus.
  - apply flat_map_constant_length. intros row _. apply length_map.
Qed.

Lemma fetch_weather_all_ok_witness :
  exists events,
    fetch_weather_for_geodataframe "key" always_ok [khartoum; kassala]
      (mkDate 2024 1 1) (mkDate 2024 1 15) []
    = (Return
         [mkWeatherRecord (15 # 1) (32 # 1) "+02:00" (mkDate 2024 1 1) (JObj []);
          mkWeatherRecord (15 # 1) (32 # 1) "+02:00" (mkDate 2024 1 8) (JObj []);
          mkWeatherRecord (15 # 1) (32 # 1) "+02:00" (mkDate 2024 1 15) (JObj []);
          mkWeatherRecord (16 # 1) (36 # 1) "+02:00" (mkDate 2024 1 1) (JObj []);
          mkWeatherRecord (16 # 1) (36 # 1) "+02:00" (mkDate 2024 1 8) (JObj []);
          mkWeatherRecord (16 # 1) (36 # 1) "+02:00" (mkDate 2024 1 15)
                          (JObj [])],
       [] ++ events)
    /\ printed events = [].
Proof.
  assert (Hmax : 738900 + 7 <= MAXORDINAL) by (vm_compute; discriminate).
  assert (Hok : forall params, status_code (always_ok params) = 200
                               /\ body (always_ok params) <> None)
    by (intros params; split; [ reflexivity | discriminate ]).
  pose proof (fetch_weather_all_ok "key" always_ok [khartoum; kassala]
                (mkDate 2024 1 1) (mkDate 2024 1 15) 738886 738900 []
                eq_refl eq_refl Hmax Hok) as Hrun.
  cbv zeta in Hrun. destruct Hrun as (events & Hrun & Hprinted & _).
  exists events. split; [ | exact Hprinted ].
  rewrite Hrun. f_equal.
Defined.

(** X4.  When the start date or the end date is not a calendar date,
    [fetch_weather_for_geodataframe] raises [ValueError] before it sends
    any request. *)
Theorem fetch_weather_invalid_date
  (API_KEY : string) (weather_api : WeatherParams -> Response)
  (gdf : list RegionRow) (start_date end_date : Date) (log : list Event) :
  strptime start_date = Raise ValueError
  \/ strptime end_date = Raise ValueError ->
  fetch_weather_for_geodataframe API_KEY weather_api gdf start_date end_date
                                 log
  = (Raise ValueError, log).
Proof.
  intros Hinvalid.
  unfold fetch_weather_for_geodataframe, bind, lift.
  destruct (strptime start_date) as [s | e1] eqn:Hs.
  - destruct Hinvalid as [Hbad | Hbad]; [ discriminate | ].
    now rewrite Hbad.
  - destruct Hinvalid as [Hbad | Hbad]; [ congruence | ].
    unfold strptime in Hs.
    destruct (_ && _) in Hs; congruence.
Qed.

Lemma fetch_weather_invalid_date_witness :
  fetch_weather_for_geodataframe "key" always_ok [khartoum]
    (mkDate 2024 1 1) (mkDate 2023 2 29) []
  = (Raise ValueError, []).
Proof.
  apply (fetch_weather_invalid_date "key" always_ok [khartoum]
           (mkDate 2024 1 1) (mkDate 2023 2 29) []).
  right. reflexivity.
Defined.




(** X6.  A response whose body is not JSON, whatever its status (200
    included), makes the loop raise at that request: the records collected
    so far, for this region and for the regions before it, are not
    returned, and no later date or region is requested. *)
Theorem weather_body_not_json_aborts
  (API_KEY : string) (weather_api : WeatherParams -> Response)
  (row : RegionRow) (rest : list RegionRow) (start_date end_date : Z)
  (current_date : Z) (weather_records : list WeatherRecord)
  (log : list Event) :
  let lat := fst (centroid_coordinates row) in
  let lon := snd (centroid_coordinates row) in
  let request d := GetWeather (weather_request API_KEY lat lon "+02:00" d) in
  (current_date <= end_date ->
   body (weather_api (weather_request API_KEY lat lon "+02:00" current_date))
   = None ->
   while_current_date API_KEY weather_api lat lon "+02:00" end_date
                      current_date weather_records log
   = (Raise JSONDecodeError, log ++ [EvGet (request current_date)]))
  /\ (start_date <= end_date ->
      body (weather_api (weather_request API_KEY lat lon "+02:00" start_date))
      = None ->
      for_rows API_KEY weather_api (row :: rest) start_date end_date
               weather_records log
      = (Raise JSONDecodeError, log ++ [EvGet (request start_date)])).
Proof.
  intros lat lon request.
  assert (Hloop : forall d records log0,
             d <= end_date ->
             body (weather_api (weather_request API_KEY lat lon "+02:00" d))
             = None ->
             while_current_date API_KEY weather_api lat lon "+02:00" end_date
                                d records log0
             = (Raise JSONDecodeError, log0 ++ [EvGet (request d)])).
  { intros d records log0 Hle Hbody.
    rewrite while_current_date_step.
    replace (d <=? end_date) with true by (symmetry; apply Z.leb_le; lia).
    unfold sample_date, bind.
    now rewrite (get_daily_weather_not_json API_KEY weather_api lat lon
                   (strftime d) "+02:00" log0 Hbody). }
  split.
  - apply Hloop.
  - intros Hle Hbody. simpl for_rows. unfold bind.
    fold lat lon. now rewrite (Hloop _ _ _ Hle Hbody).
Qed.

Lemma weather_body_not_json_aborts_witness :
  for_rows "key" broken_ok [khartoum; kassala] 738886 739251
           [khartoum_week_1] []
  = (Raise JSONDecodeError,
     [EvGet (GetWeather
               (weather_request "key" (15 # 1) (32 # 1) "+02:00" 738886))]).
Proof.
  apply (proj2 (weather_body_not_json_aborts "key" broken_ok khartoum [kassala]
                  738886 739251 738886 [khartoum_week_1] []));
    [ lia | reflexivity ].
Defined.

(** ** Runs of the OSM loop *)

Lemma get_bbox_from_multipolygon_as_query (g : Geometry) :
  exists b0 b1 b2 b3,
    get_bbox_from_multipolygon g = [b0; b1; b2; b3]
    /\ bbox_query g = BBoxQuery b0 b1 b2 b3.
Proof.
  unfold get_bbox_from_multipolygon, bbox_query.
  destruct (bounds g) as [[[minx miny] maxx] maxy].
  now exists miny, minx, maxy, maxx.
Qed.

Section OsmRuns.

Variable overpass_api : OverpassQuery -> Response.

Lemma get_osm_data_of_geometry (g : Geometry) (log : list Event) :
  let response := overpass_api (bbox_query g) in
  let log' := log ++ [EvGet (GetOverpass (bbox_query g))] in
  get_osm_data_from_bbox overpass_api (get_bbox_from_multipolygon g) log
  = if status_code response =? 200 then
      (obind (json response)
             (fun osm_data => dict_get osm_data "elements" (JArr [])), log')
    else if (400 <=? status_code response) && (status_code response <? 600)
    then (Raise (HTTPError (status_code response)), log')
    else (Return JNull, log').
Proof.
  destruct (get_bbox_from_multipolygon_as_query g)
    as (b0 & b1 & b2 & b3 & -> & ->).
  apply get_osm_data_from_bbox_by_status.
Qed.

Lemma get_osm_data_region_ok (row : BoundaryRow) (log : list Event) :
  region_ok overpass_api row ->
  get_osm_data_from_bbox overpass_api
    (get_bbox_from_multipolygon (geometry row)) log
  = (Return (region_elements overpass_api row), log ++ [region_request row]).
Proof.
  intros [Hstatus (fields & Hbody)].
  rewrite get_osm_data_of_geometry.
  unfold region_elements, region_response in *.
  rewrite Hstatus. unfold json. now rewrite Hbody.
Qed.

Lemma osm_loop_run (rows : list BoundaryRow) :
  (forall row, In row rows -> region_ok overpass_api row) ->
  forall (osm_data : list JSON) (log : list Event),
    osm_loop overpass_api rows osm_data log
    = (Return tt, osm_data ++ map (region_elements overpass_api) rows,
       log ++ map region_request rows).
Proof.
  induction rows as [| row rows IH]; intros Hok osm_data log; simpl.
  - now rewrite !app_nil_r.
  - rewrite (get_osm_data_region_ok row log (Hok row (or_introl eq_refl))).
    rewrite IH by (intros r Hr; apply Hok; now right).
    now rewrite <- !app_assoc.
Qed.

End OsmRuns.

(** X7.  The request that [get_osm_data_from_bbox] sends for the bounding
    box of a geometry asks for the box (south, west, north, east) =
    (miny, minx, maxy, maxx) of the bounds of the geometry, and it is the
    only event of the call: the box always has its four entries. *)
Theorem osm_request_box_of_bounds
  (overpass_api : OverpassQuery -> Response) (g : Geometry)
  (log : list Event) :
  exists minx miny maxx maxy,
    bounds g = (minx, miny, maxx, maxy)
    /\ snd (get_osm_data_from_bbox overpass_api
              (get_bbox_from_multipolygon g) log)
       = log ++ [EvGet (GetOverpass (BBoxQuery miny minx maxy maxx))]
    /\ fst (get_osm_data_from_bbox overpass_api
              (get_bbox_from_multipolygon g) log)
       <> Raise IndexError.
Proof.
  pose proof (get_osm_data_of_geometry overpass_api g log) as Hrun.
  cbv zeta in Hrun. unfold bbox_query in Hrun.
  destruct (bounds g) as [[[minx miny] maxx] maxy].
  exists minx, miny, maxx, maxy. split; [ reflexivity | ].
  rewrite Hrun.
  set (response := overpass_api (BBoxQuery miny minx maxy maxx)).
  destruct (status_code response =? 200).
  - split; [ reflexivity | ]. unfold json, dict_get. simpl.
    destruct (body response) as [[] |]; simpl; discriminate.
  - destruct ((400 <=? status_code response) && (status_code response <? 600));
      split; try reflexivity; discriminate.
Qed.

(** X8.  A box with fewer than four entries makes
    [get_osm_data_from_bbox] raise [IndexError] while it builds the query:
    no request is sent. *)
Theorem get_osm_data_short_bbox
  (overpass_api : OverpassQuery -> Response) (bbox : list float)
  (log : list Event) :
  (List.length bbox < 4)%nat ->
  get_osm_data_from_bbox overpass_api bbox log = (Raise IndexError, log).
Proof.
  intros Hshort.
  destruct bbox as [| b0 [| b1 [| b2 [| b3 rest]]]];
    try reflexivity.
  simpl in Hshort. lia.
Qed.

Lemma get_osm_data_short_bbox_witness :
  get_osm_data_from_bbox one_way [Some 0; Some 29; Some 1]%Q []
  = (Raise IndexError, []).
Proof.
  apply (get_osm_data_short_bbox one_way [Some 0; Some 29; Some 1]%Q []).
  simpl. lia.
Defined.

(** X9.  A status-200 answer whose body is not a JSON object makes
    [get_osm_data_from_bbox] raise after the request ([JSONDecodeError] when
    the body is not JSON, [AttributeError] when it is JSON of another
    kind), and the loop over the regions stops there. *)
Theorem get_osm_data_ok_without_object
  (overpass_api : OverpassQuery -> Response) (row : BoundaryRow)
  (rest : list BoundaryRow) (osm_data : list JSON) (log : list Event) :
  status_code (region_response overpass_api row) = 200 ->
  (forall fields, body (region_response overpass_api row)
                  <> Some (JObj fields)) ->
  let e := match body (region_response overpass_api row) with
           | None => JSONDecodeError
           | Some _ => AttributeError
           end in
  get_osm_data_from_bbox overpass_api
    (get_bbox_from_multipolygon (geometry row)) log
  = (Raise e, log ++ [region_request row])
  /\ osm_loop overpass_api (row :: rest) osm_data log
     = (Raise e, osm_data, log ++ [region_request row]).
Proof.
  intros Hstatus Hbody e.
  assert (Hcall : get_osm_data_from_bbox overpass_api
                    (get_bbox_from_multipolygon (geometry row)) log
                  = (Raise e, log ++ [region_request row])).
  { rewrite get_osm_data_of_geometry. subst e.
    unfold region_response in *. rewrite Hstatus. unfold json.
    simpl. destruct (body (overpass_api (bbox_query (geometry row))))
      as [j |]; [ | reflexivity ].
    destruct j; try reflexivity. now destruct (Hbody fields). }
  split; [ exact Hcall | ].
  simpl osm_loop. now rewrite Hcall.
Qed.

Lemma get_osm_data_ok_without_object_witness :
  osm_loop bare_list [north_kordofan; river_nile] [] []
  = (Raise AttributeError, [], [region_request north_kordofan]).
Proof.
  apply (get_osm_data_ok_without_object bare_list north_kordofan
           [river_nile] [] []).
  - reflexivity.
  - discriminate.
Defined.

(** X10.  When the answer for every region has status 200 and a JSON
    object as body, the OSM loop stores exactly one entry per row of the
    boundary table, in the order of the table: the ['elements'] of the
    answer for that row, or the empty list when the answer has none.  The
    list can therefore be assigned to the table as a column.  The loop
    sends one request per row and nothing else. *)
Theorem osm_loop_one_entry_per_row
  (overpass_api : OverpassQuery -> Response) (rows : list BoundaryRow)
  (osm_data : list JSON) (log : list Event) :
  (forall row, In row rows -> region_ok overpass_api row) ->
  osm_loop overpass_api rows osm_data log
  = (Return tt, osm_data ++ map (region_elements overpass_api) rows,
     log ++ map region_request rows)
  /\ (forall values,
         fst (osm_loop overpass_api rows [] log) = (Return tt, values) ->
         set_column (fun row elements => (row, elements)) rows values
         = Return (map (fun row => (row, region_elements overpass_api row))
                       rows)).
Proof.
  intros Hok. split; [ now apply osm_loop_run | ].
  intros values Hvalues.
  rewrite (osm_loop_run overpass_api rows Hok [] log) in Hvalues.
  simpl in Hvalues. injection Hvalues as <-.
  unfold set_column. rewrite length_map, Nat.eqb_refl.
  f_equal. clear Hok.
  induction rows as [| row rows IH]; simpl; [ reflexivity | ].
  now rewrite IH.
Qed.

Lemma osm_loop_one_entry_per_row_witness :
  osm_loop one_way [north_kordofan; river_nile] [] []
  = (Return tt,
     [JArr [JObj [("type"%string, JStr "way");
                  ("id"%string, JNum (4 # 1))]];
      JArr [JObj [("type"%string, JStr "way");
                  ("id"%string, JNum (4 # 1))]]],
     [region_request north_kordofan; region_request river_nile]).
Proof.
  apply (osm_loop_one_entry_per_row one_way [north_kordofan; river_nile]
           [] []).
  intros row _. split; [ reflexivity | ]. eexists. reflexivity.
Defined.

(** X11.  Whatever the interpreter answers, the OSM loop does nothing but
    send requests: it never pauses between two requests and prints
    nothing, and it sends at most one request per row. *)
Theorem osm_loop_requests_only
  (overpass_api : OverpassQuery -> Response) (rows : list BoundaryRow)
  (osm_data : list JSON) (log : list Event) :
  exists sent : nat,
    (sent <= List.length rows)%nat
    /\ snd (osm_loop overpass_api rows osm_data log)
       = log ++ map region_request (firstn sent rows)
    /\ (forall result,
           fst (osm_loop overpass_api rows osm_data log)
           = (Return tt, result) ->
           sent = List.length rows
           /\ List.length result
              = (List.length osm_data + List.length rows)%nat).
Proof.
  revert osm_data log.
  induction rows as [| row rows IH]; intros osm_data log.
  - exists 0%nat. simpl. rewrite app_nil_r.
    split; [ lia | split; [ reflexivity | ] ].
    intros result [= <-]. split; [ reflexivity | simpl; lia ].
  - simpl osm_loop.
    pose proof (get_osm_data_of_geometry overpass_api (geometry row) log)
      as Hcall.
    cbv zeta in Hcall. fold (region_request row) in Hcall.
    destruct (get_osm_data_from_bbox overpass_api
                (get_bbox_from_multipolygon (geometry row)) log)
      as [[elements | e] log1] eqn:Hget.
    + assert (Hlog : log1 = log ++ [region_request row]).
      { destruct (status_code (overpass_api (bbox_query (geometry row)))
                  =? 200);
          [ | destruct ((400 <=? _) && (_ <? 600)) ];
          now injection Hcall. }
      destruct (IH (osm_data ++ [elements]) log1)
        as (sent & Hle & Hsnd & Hall).
      exists (S sent). cbn [firstn map List.length].
      split; [ lia | ]. split.
      * rewrite Hsnd, Hlog, <- app_assoc. reflexivity.
      * intros result Hret. destruct (Hall result Hret) as [-> Hlen].
        rewrite length_app in Hlen. simpl in Hlen. split; lia.
    + assert (Hlog : log1 = log ++ [region_request row]).
      { destruct (status_code (overpass_api (bbox_query (geometry row)))
                  =? 200);
          [ | destruct ((400 <=? _) && (_ <? 600)) ];
          now injection Hcall. }
      exists 1%nat. cbn [firstn map List.length snd fst].
      split; [ lia | ]. split; [ exact Hlog | discriminate ].
Qed.

(** X12.  When the answer for a region has an error status, 400 to 599,
    and the regions before it were answered with status 200 and a JSON
    object, the OSM loop raises at that region and the regions after it are
    never requested.  The list [osm_data] keeps the entries of the regions
    before it and gets none for the others: run on the empty list, the
    loop leaves it shorter than the table, and assigning it as a column
    raises [ValueError]. *)
Theorem osm_loop_error_keeps_entries
  (overpass_api : OverpassQuery -> Response)
  (before : list BoundaryRow) (row : BoundaryRow) (after : list BoundaryRow)
  (osm_data : list JSON) (log : list Event) :
  (forall r, In r before -> region_ok overpass_api r) ->
  400 <= status_code (region_response overpass_api row) < 600 ->
  osm_loop overpass_api (before ++ row :: after) osm_data log
  = (Raise (HTTPError (status_code (region_response overpass_api row))),
     osm_data ++ map (region_elements overpass_api) before,
     log ++ map region_request (before ++ [row]))
  /\ set_column (fun row elements => (row, elements))
       (before ++ row :: after)
       (snd (fst (osm_loop overpass_api (before ++ row :: after) [] log)))
     = Raise ValueError.
Proof.
  intros Hok Herr.
  assert (Hrun : forall osm_data log,
             osm_loop overpass_api (before ++ row :: after) osm_data log
             = (Raise (HTTPError
                         (status_code (region_response overpass_api row))),
                osm_data ++ map (region_elements overpass_api) before,
                log ++ map region_request (before ++ [row]))).
  { clear osm_data log.
    induction before as [| r before IH]; intros osm_data log.
    - simpl osm_loop. rewrite get_osm_data_of_geometry.
      unfold region_response in *.
      replace (status_code (overpass_api (bbox_query (geometry row))) =? 200)
        with false by (symmetry; apply Z.eqb_neq; lia).
      replace ((400 <=? status_code
                          (overpass_api (bbox_query (geometry row))))
               && (status_code (overpass_api (bbox_query (geometry row)))
                   <? 600))
        with true
        by (symmetry; apply andb_true_iff; split;
            [ apply Z.leb_le | apply Z.ltb_lt ]; lia).
      simpl. now rewrite app_nil_r.
    - cbn [app]. simpl osm_loop.
      rewrite (get_osm_data_region_ok overpass_api r log
                 (Hok r (or_introl eq_refl))).
      rewrite IH by (intros r' Hr'; apply Hok; now right).
      cbn [map app]. now rewrite <- !app_assoc. }
  split; [ apply Hrun | ].
  rewrite Hrun. cbn [fst snd app]. unfold set_column.
  rewrite length_map, length_app. cbn [List.length].
  replace (_ =? _)%nat with false
    by (symmetry; apply Nat.eqb_neq; lia).
  reflexivity.
Qed.

Lemma osm_loop_error_keeps_entries_witness :
  osm_loop west_only ([north_kordofan] ++ river_nile :: [north_kordofan])
           [] []
  = (Raise (HTTPError 429),
     [] ++ map (region_elements west_only) [north_kordofan],
     [region_request north_kordofan; region_request river_nile]).
Proof.
  assert (Hok : forall r, In r [north_kordofan] -> region_ok west_only r).
  { intros r [<- | []]. split; [ reflexivity | ]. eexists. reflexivity. }
  assert (Herr : 400 <= status_code (region_response west_only river_nile)
                 < 600)
    by (vm_compute; split; [ discriminate | reflexivity ]).
  apply (osm_loop_error_keeps_entries west_only [north_kordofan] river_nile
           [north_kordofan] [] [] Hok Herr).
Defined.

(** ** Runs of the node lookup *)

Section NodeRuns.

Variable overpass_api : OverpassQuery -> Response.

Lemma for_chunks_run_handled (node_ids : list Z) (chunk_size : Z) :
  forall (starts : list Z) (coordinates : list (JSON * JSON))
         (log : list Event),
    (forall i, In i starts ->
               chunk_handled overpass_api
                 (slice node_ids i (i + chunk_size))) ->
    let cs := map (fun i => slice node_ids i (i + chunk_size)) starts in
    for_chunks overpass_api node_ids chunk_size starts coordinates log
    = (Return (coordinates ++ flat_map (chunk_coordinates overpass_api) cs),
       log ++ flat_map (chunk_events overpass_api) cs).
Proof.
  induction starts as [| i rest IH]; intros coordinates log Hhandled cs.
  - simpl. unfold ret. now rewrite !app_nil_r.
  - rewrite for_chunks_cons. subst cs. cbn [map flat_map].
    set (chunk := slice node_ids i (i + chunk_size)).
    assert (Hrest : forall j, In j rest ->
                      chunk_handled overpass_api
                        (slice node_ids j (j + chunk_size)))
      by (intros j Hj; apply Hhandled; now right).
    destruct (status_code (overpass_api (NodesQuery chunk)) =? 200) eqn:Hs.
    + destruct (Hhandled i (or_introl eq_refl)) as [Hnot | (nodes & Hparse)];
        [ apply Z.eqb_eq in Hs; contradiction | ].
      fold chunk in Hparse.
      assert (Hc : chunk_coordinates overpass_api chunk
                   = found_coordinates nodes chunk)
        by (unfold chunk_coordinates; now rewrite Hs, Hparse).
      assert (He : chunk_events overpass_api chunk = chunk_query_events chunk)
        by (unfold chunk_events; rewrite Hs; apply app_nil_r).
      rewrite Hparse, (IH _ _ Hrest), Hc, He, <- !app_assoc. reflexivity.
    + assert (Hc : chunk_coordinates overpass_api chunk = [])
        by (unfold chunk_coordinates; now rewrite Hs).
      assert (He : chunk_events overpass_api chunk
                   = chunk_query_events chunk
                     ++ [EvPrint (FailedNodes chunk
                                    (status_code
                                       (overpass_api (NodesQuery chunk))))])
        by (unfold chunk_events; now rewrite Hs).
      rewrite (IH _ _ Hrest), Hc, He, <- !app_assoc. reflexivity.
Qed.

Lemma for_chunks_abort (node_ids : list Z) (chunk_size : Z)
  (i : Z) (after : list Z) (e : Exn) :
  let chunk := slice node_ids i (i + chunk_size) in
  status_code (overpass_api (NodesQuery chunk)) = 200 ->
  parse_nodes (overpass_api (NodesQuery chunk)) = Raise e ->
  forall (before : list Z) (coordinates : list (JSON * JSON))
         (log : list Event),
    (forall j, In j before ->
               chunk_handled overpass_api
                 (slice node_ids j (j + chunk_size))) ->
    for_chunks overpass_api node_ids chunk_size (before ++ i :: after)
               coordinates log
    = (Raise e,
       log ++ flat_map (chunk_events overpass_api)
                (map (fun j => slice node_ids j (j + chunk_size)) before)
           ++ chunk_query_events chunk).
Proof.
  intros chunk Hs Hparse before.
  induction before as [| j before IH]; intros coordinates log Hhandled.
  - cbn [app map flat_map]. rewrite for_chunks_cons. fold chunk.
    now rewrite Hs, Hparse.
  - cbn [app map flat_map]. rewrite for_chunks_cons.
    set (c := slice node_ids j (j + chunk_size)).
    assert (Hrest : forall j', In j' before ->
                      chunk_handled overpass_api
                        (slice node_ids j' (j' + chunk_size)))
      by (intros j' Hj'; apply Hhandled; now right).
    destruct (status_code (overpass_api (NodesQuery c)) =? 200) eqn:Hc.
    + destruct (Hhandled j (or_introl eq_refl)) as [Hnot | (nodes & Hp)];
        [ apply Z.eqb_eq in Hc; contradiction | ].
      fold c in Hp. rewrite Hp, (IH _ _ Hrest).
      unfold chunk_events at 2. rewrite Hc, app_nil_r, <- !app_assoc.
      reflexivity.
    + rewrite (IH _ _ Hrest).
      unfold chunk_events at 2. rewrite Hc, <- !app_assoc. reflexivity.
Qed.

End NodeRuns.

(** X13.  Degenerate calls of [fetch_node_coordinates] never reach the
    network: a chunk size of 0 raises [ValueError] (the step of [range]),
    and a negative chunk size or an empty list of ids returns the empty
    list, without a request or a message. *)
Theorem fetch_node_coordinates_degenerate
  (overpass_api : OverpassQuery -> Response) (node_ids : list Z)
  (chunk_size : Z) (log : list Event) :
  chunk_size <= 0 \/ node_ids = [] ->
  fetch_node_coordinates overpass_api node_ids chunk_size log
  = (if chunk_size =? 0 then Raise ValueError else Return [], log).
Proof.
  intros Hdegenerate.
  unfold fetch_node_coordinates, bind, lift, range.
  destruct (chunk_size =? 0) eqn:Hzero; [ reflexivity | ].
  apply Z.eqb_neq in Hzero.
  assert (Hlen : range_len 0 (Z.of_nat (List.length node_ids)) chunk_size = 0).
  { unfold range_len.
    destruct Hdegenerate as [Hneg | ->].
    - replace (0 <? chunk_size) with false
        by (symmetry; apply Z.ltb_ge; lia).
      replace (Z.of_nat (List.length node_ids) <? 0) with false
        by (symmetry; apply Z.ltb_ge; lia).
      simpl. now rewrite andb_false_r.
    - simpl. rewrite !andb_false_r. reflexivity. }
  rewrite Hlen. reflexivity.
Qed.

Lemma fetch_node_coordinates_degenerate_witness :
  fetch_node_coordinates knows_1_and_3 [1; 2; 3] 0 [] = (Raise ValueError, [])
  /\ fetch_node_coordinates knows_1_and_3 [1; 2; 3] (-50) [] = (Return [], [])
  /\ fetch_node_coordinates knows_1_and_3 [] 50 [] = (Return [], []).
Proof.
  split; [ | split ].
  - apply (fetch_node_coordinates_degenerate knows_1_and_3 [1; 2; 3] 0 []).
    left. lia.
  - apply (fetch_node_coordinates_degenerate knows_1_and_3 [1; 2; 3] (-50) []).
    left. lia.
  - apply (fetch_node_coordinates_degenerate knows_1_and_3 [] 50 []).
    now right.
Defined.

(** X14.  A status-200 answer that the dict comprehension cannot read (a
    body that is not JSON, no ['elements'], an element without ['id'],
    ['lat'] or ['lon']) makes [fetch_node_coordinates] raise at that chunk:
    the coordinates found in the chunks before it are not returned and the
    chunks after it are not requested. *)
Theorem fetch_node_coordinates_unreadable_answer
  (overpass_api : OverpassQuery -> Response) (node_ids : list Z)
  (chunk_size : Z) (log : list Event)
  (before : list (list Z)) (chunk : list Z) (after : list (list Z))
  (e : Exn) :
  0 < chunk_size ->
  chunks node_ids chunk_size = before ++ chunk :: after ->
  (forall c, In c before -> chunk_handled overpass_api c) ->
  status_code (overpass_api (NodesQuery chunk)) = 200 ->
  parse_nodes (overpass_api (NodesQuery chunk)) = Raise e ->
  fetch_node_coordinates overpass_api node_ids chunk_size log
  = (Raise e,
     log ++ flat_map (chunk_events overpass_api) before
         ++ chunk_query_events chunk).
Proof.
  intros Hk Hsplit Hbefore Hs Hparse.
  unfold fetch_node_coordinates, bind, lift. unfold chunks in Hsplit.
  unfold range in *.
  replace (chunk_size =? 0) with false in *
    by (symmetry; apply Z.eqb_neq; lia).
  apply map_eq_app in Hsplit as (sb & stail & Hstarts & Hsb & Htail).
  apply map_eq_cons in Htail as (i & sa & -> & Hi & _).
  rewrite Hstarts. subst before chunk.
  apply for_chunks_abort; [ exact Hs | exact Hparse | ].
  intros j Hj. apply Hbefore.
  now apply (in_map (fun i => slice node_ids i (i + chunk_size))).
Qed.

Lemma fetch_node_coordinates_unreadable_answer_witness :
  fetch_node_coordinates ways_for_3 [1; 2; 3; 4; 5] 2 []
  = (Raise KeyError,
     [EvPrint (QueryingNodes [1; 2]); EvPrint (QueryText (NodesQuery [1; 2]));
      EvGet (GetOverpass (NodesQuery [1; 2]))]
       ++ chunk_query_events [3; 4]).
Proof.
  apply (fetch_node_coordinates_unreadable_answer ways_for_3 [1; 2; 3; 4; 5]
           2 [] [[1; 2]] [3; 4] [[5]] KeyError).
  - lia.
  - reflexivity.
  - intros c [<- | []]. right. eexists. reflexivity.
  - reflexivity.
  - reflexivity.
Defined.

Lemma find_map {A B} (p : B -> bool) (f : A -> B) (l : list A) :
  find p (map f l) = option_map f (find (fun a => p (f a)) l).
Proof.
  induction l as [| a l IH]; simpl; [ reflexivity | ].
  now destruct (p (f a)).
Qed.

Lemma find_ext {A} (p q : A -> bool) (l : list A) :
  (forall a, p a = q a) -> find p l = find q l.
Proof.
  intros Hpq. induction l as [| a l IH]; simpl; [ reflexivity | ].
  now rewrite Hpq, IH.
Qed.

Lemma flat_map_ext_in {A B} (f g : A -> list B) (l : list A) :
  (forall a, In a l -> f a = g a) -> flat_map f l = flat_map g l.
Proof.
  intros Hfg. induction l as [| a l IH]; simpl; [ reflexivity | ].
  rewrite (Hfg a (or_introl eq_refl)), IH; [ reflexivity | ].
  intros b Hb. apply Hfg. now right.
Qed.

(** X15.  When a status-200 answer lists node elements, the coordinates
    that a chunk adds to the result are, for each id of the chunk in the
    order of the chunk, the (lat, lon) of the last element of the answer
    with that id: an id that the answer does not list adds nothing, an id
    that the chunk repeats is looked up each time, and of two elements with
    the same id the later one wins. *)
Theorem chunk_coordinates_last_node_wins
  (overpass_api : OverpassQuery -> Response) (chunk : list Z)
  (fields : list (string * JSON)) (nodes : list (Z * Q * Q)) :
  status_code (overpass_api (NodesQuery chunk)) = 200 ->
  body (overpass_api (NodesQuery chunk)) = Some (JObj fields) ->
  assoc "elements" fields
  = Some (JArr (map (fun n => node (fst (fst n)) (snd (fst n)) (snd n))
                    nodes)) ->
  chunk_coordinates overpass_api chunk
  = flat_map (fun node_id =>
                match last_node nodes node_id with
                | Some n => [(JNum (snd (fst n)), JNum (snd n))]
                | None => []
                end) chunk.
Proof.
  intros Hstatus Hbody Helements.
  set (entry := fun n : Z * Q * Q =>
                  (Dict.KNum (inject_Z (fst (fst n))),
                   (JNum (snd (fst n)), JNum (snd n)))).
  assert (Hparse : parse_nodes (overpass_api (NodesQuery chunk))
                   = Return (fold_left (fun d e => Dict.set d (fst e) (snd e))
                                       (map entry nodes) [])).
  { unfold parse_nodes, json. rewrite Hbody. cbn [obind getitem].
    rewrite Helements. cbn [obind iter].
    apply nodes_dict_entries.
    clear. induction nodes as [| [[id lat] lon] nodes IH]; simpl;
      constructor; [ reflexivity | exact IH ]. }
  unfold chunk_coordinates. rewrite Hstatus, Hparse. simpl.
  unfold found_coordinates. apply flat_map_ext. intros node_id.
  rewrite lookup_fold_set, <- map_rev, find_map. unfold last_node.
  rewrite (find_ext (fun a => Dict.key_eqb (fst (entry a))
                                (Dict.KNum (inject_Z node_id)))
                    (fun n => fst (fst n) =? node_id) (rev nodes))
    by (intros n; apply Qeq_bool_inject_Z).
  now destruct (find _ (rev nodes)).
Qed.

Lemma chunk_coordinates_last_node_wins_witness :
  chunk_coordinates answers_node_7_twice [5; 6; 7; 5]
  = [(JNum 0, JNum 0); (JNum (9 # 2), JNum (8 # 2)); (JNum 0, JNum 0)].
Proof.
  apply (chunk_coordinates_last_node_wins answers_node_7_twice [5; 6; 7; 5]
           [("elements"%string,
             JArr (map (fun n => node (fst (fst n)) (snd (fst n)) (snd n))
                       node_7_twice))]
           node_7_twice);
    reflexivity.
Defined.

(** X16.  When every chunk is answered with status 200 and a well-formed
    answer that lists all the ids of the chunk, [fetch_node_coordinates]
    returns exactly one coordinate per id, in the order of the ids it was
    given, and prints no failure message. *)
Theorem fetch_node_coordinates_all_found
  (overpass_api : OverpassQuery -> Response) (node_ids : list Z)
  (chunk_size : Z) (log : list Event) (coordinate : Z -> JSON * JSON) :
  0 < chunk_size ->
  (forall chunk,
      In chunk (chunks node_ids chunk_size) ->
      status_code (overpass_api (NodesQuery chunk)) = 200
      /\ exists nodes,
           parse_nodes (overpass_api (NodesQuery chunk)) = Return nodes
           /\ forall node_id,
                In node_id chunk ->
                Dict.lookup nodes (Dict.KNum (inject_Z node_id))
                = Some (coordinate node_id)) ->
  fetch_node_coordinates overpass_api node_ids chunk_size log
  = (Return (map coordinate node_ids),
     log ++ flat_map chunk_query_events (chunks node_ids chunk_size)).
Proof.
  intros Hk Hfound.
  pose proof (chunks_concat node_ids chunk_size Hk) as Hconcat.
  unfold fetch_node_coordinates, bind, lift. unfold chunks in *.
  unfold range in *.
  replace (chunk_size =? 0) with false in *
    by (symmetry; apply Z.eqb_neq; lia).
  set (starts := map (fun j => 0 + Z.of_nat j * chunk_size) _) in *.
  set (cs := map (fun i => slice node_ids i (i + chunk_size)) starts) in *.
  rewrite for_chunks_run_handled. fold cs.
  - cbn [app]. f_equal.
    + f_equal.
      transitivity (map coordinate (List.concat cs));
        [ | now rewrite Hconcat ].
      rewrite concat_map, <- flat_map_concat_map.
      apply flat_map_ext_in. intros chunk Hchunk.
      destruct (Hfound chunk Hchunk) as [Hstatus (nodes & Hparse & Hall)].
      unfold chunk_coordinates. rewrite Hstatus, Hparse. simpl.
      unfold found_coordinates. clear Hchunk Hparse Hstatus.
      induction chunk as [| node_id chunk IH]; simpl; [ reflexivity | ].
      rewrite (Hall node_id (or_introl eq_refl)), IH; [ reflexivity | ].
      intros id Hid. apply Hall. now right.
    + f_equal. apply flat_map_ext_in. intros chunk Hchunk.
      destruct (Hfound chunk Hchunk) as [Hstatus _].
      unfold chunk_events. rewrite Hstatus. apply app_nil_r.
  - intros i Hi. right.
    destruct (Hfound (slice node_ids i (i + chunk_size))) as [_ (nodes & Hp & _)].
    + now apply (in_map (fun i => slice node_ids i (i + chunk_size))).
    + now exists nodes.
Qed.

Lemma fetch_node_coordinates_all_found_witness :
  fetch_node_coordinates grid [4; 2; 9; 2; 7] 2 []
  = (Return (map (fun id => (JNum (inject_Z id), JNum (inject_Z (- id))))
                 [4; 2; 9; 2; 7]),
     [] ++ flat_map chunk_query_events [[4; 2]; [9; 2]; [7]]).
Proof.
  apply (fetch_node_coordinates_all_found grid [4; 2; 9; 2; 7] 2 []
           (fun id => (JNum (inject_Z id), JNum (inject_Z (- id))))).
  - lia.
  - intros chunk [<- | [<- | [<- | []]]];
      (split; [ reflexivity | ]); eexists; (split; [ reflexivity | ]);
      intros node_id Hin; simpl in Hin;
      repeat (destruct Hin as [<- | Hin]; [ reflexivity | ]);
      destruct Hin.
Defined.

(** ** The second pass over the weather table *)

Lemma assoc_app (key : string) (l1 l2 : list (string * JSON)) :
  assoc key (l1 ++ l2)
  = match assoc key l1 with Some v => Some v | None => assoc key l2 end.
Proof.
  induction l1 as [| [k v] l1 IH]; simpl; [ reflexivity | ].
  now destruct (k =? key)%string.
Qed.

(** X17.  [process_weather_data] reads back the twelve fields of a day
    summary: whatever other entries the response has (lat, lon, tz, date,
    units, ...), as long as none of them is named like one of the six
    sections, the function returns exactly the fields that the sections
    hold. *)
Theorem process_weather_data_day_summary
  (others : list (string * JSON)) (f : WeatherFields) :
  (forall name, In name section_names -> assoc name others = None) ->
  process_weather_data (day_summary others f) = Return f.
Proof.
  intros Hothers.
  assert (Hsection : forall name,
             In name section_names ->
             getitem (day_summary others f) name
             = getitem (JObj (summary_sections f)) name).
  { intros name Hname. unfold day_summary, getitem.
    now rewrite assoc_app, (Hothers name Hname). }
  unfold process_weather_data, subscript. cbn [fold_left obind].
  rewrite !Hsection by (simpl; tauto).
  destruct f. reflexivity.
Qed.

Lemma process_weather_data_day_summary_witness :
  process_weather_data (day_summary example_others example_fields)
  = Return example_fields.
Proof.
  apply (process_weather_data_day_summary example_others example_fields).
  intros name Hname. simpl in Hname.
  repeat (destruct Hname as [<- | Hname]; [ reflexivity | ]).
  destruct Hname.
Defined.



Lemma apply_process_weather_data_all (weather_df : list WeatherRecord)
  (fields : WeatherRecord -> WeatherFields) :
  (forall record, In record weather_df ->
                  process_weather_data (data record)
                  = Return (fields record)) ->
  apply_process_weather_data (map data weather_df)
  = Return (map fields weather_df).
Proof.
  induction weather_df as [| record weather_df IH]; intros Hall; simpl;
    [ reflexivity | ].
  rewrite (Hall record (or_introl eq_refl)). simpl.
  rewrite IH by (intros r Hr; apply Hall; now right).
  reflexivity.
Qed.

(** X19.  When every row of a non-empty weather table holds a payload that
    [process_weather_data] reads, the second pass returns the table with
    as many rows, in the same order, each row next to the fields of its
    own payload. *)
Theorem add_processed_columns_row_by_row
  (weather_df : list WeatherRecord)
  (fields : WeatherRecord -> WeatherFields) :
  weather_df <> [] ->
  (forall record, In record weather_df ->
                  process_weather_data (data record)
                  = Return (fields record)) ->
  add_processed_columns weather_df
  = Return (map (fun record => (record, fields record)) weather_df).
Proof.
  intros Hrows Hall. unfold add_processed_columns, data_column.
  destruct weather_df as [| record rest] eqn:Hdf; [ congruence | ].
  rewrite <- Hdf in *. cbn [obind].
  rewrite (apply_process_weather_data_all weather_df fields Hall).
  cbn [obind]. f_equal. clear.
  induction weather_df as [| r weather_df IH]; simpl; [ reflexivity | ].
  now rewrite IH.
Qed.

Lemma add_processed_columns_row_by_row_witness :
  add_processed_columns
    [mkWeatherRecord (15 # 1) (32 # 1) "+02:00" (mkDate 2024 1 1)
                     (day_summary example_others example_fields)]
  = Return [(mkWeatherRecord (15 # 1) (32 # 1) "+02:00" (mkDate 2024 1 1)
                             (day_summary example_others example_fields),
             example_fields)].
Proof.
  apply (add_processed_columns_row_by_row
           [mkWeatherRecord (15 # 1) (32 # 1) "+02:00" (mkDate 2024 1 1)
                            (day_summary example_others example_fields)]
           (fun _ => example_fields)).
  - discriminate.
  - intros record [<- | []]. reflexivity.
Defined.

(** X20.  One payload that [process_weather_data] cannot read makes the
    second pass raise the error of that payload: no row is returned, the
    readable rows before it included. *)
Theorem add_processed_columns_unreadable_row
  (before : list WeatherRecord) (record : WeatherRecord)
  (after : list WeatherRecord) (fields : WeatherRecord -> WeatherFields)
  (e : Exn) :
  (forall r, In r before ->
             process_weather_data (data r) = Return (fields r)) ->
  process_weather_data (data record) = Raise e ->
  add_processed_columns (before ++ record :: after) = Raise e.
Proof.
  intros Hbefore Hrecord. unfold add_processed_columns, data_column.
  destruct (before ++ record :: after) as [| r0 rest0] eqn:Hdf;
    [ now destruct before | ].
  rewrite <- Hdf. clear Hdf. cbn [obind].
  assert (Hraise : apply_process_weather_data
                     (map data (before ++ record :: after)) = Raise e).
  { induction before as [| r before IH]; simpl.
    - now rewrite Hrecord.
    - rewrite (Hbefore r (or_introl eq_refl)). simpl.
      rewrite IH by (intros r' Hr'; apply Hbefore; now right).
      reflexivity. }
  now rewrite Hraise.
Qed.

Lemma add_processed_columns_unreadable_row_witness :
  add_processed_columns
    ([mkWeatherRecord (15 # 1) (32 # 1) "+02:00" (mkDate 2024 1 1)
                      (day_summary example_others example_fields)]
       ++ khartoum_week_1 :: [])
  = Raise KeyError.
Proof.
  apply (add_processed_columns_unreadable_row
           [mkWeatherRecord (15 # 1) (32 # 1) "+02:00" (mkDate 2024 1 1)
                            (day_summary example_others example_fields)]
           khartoum_week_1 [] (fun _ => example_fields) KeyError).
  - intros r [<- | []]. reflexivity.
  - reflexivity.
Defined.

(** ** The derived columns *)

Lemma combine_map_fst {A B} (f : A -> B) (l : list A) :
  map fst (combine l (map f l)) = l.
Proof.
  induction l as [| a l IH]; simpl; [ reflexivity | now rewrite IH ].
Qed.

Lemma region_columns (f : BoundaryRow -> PyVal) (l : list BoundaryRow) :
  forall cs : list (Q * Q),
    List.length cs = List.length l ->
    let regions :=
      map (fun rv : BoundaryRow * PyVal * (Q * Q) =>
             mkRegionRow (fst (fst rv)) (snd (fst rv)) (snd rv))
          (combine (combine l (map f l)) cs) in
    map boundary regions = l
    /\ map coordinates regions = map f l
    /\ map centroid_coordinates regions = cs.
Proof.
  induction l as [| a l IH]; intros [| c cs] Hlen; simpl in *;
    try discriminate; [ repeat split | ].
  injection Hlen as Hlen. destruct (IH cs Hlen) as (Hb & Hc & Hcc).
  repeat split; f_equal; assumption.
Qed.

(** X21.  The two cells that add the derived columns succeed when every
    geometry of the table is valid and has a centroid with coordinates:
    then each row gets the flattened coordinates and the (latitude,
    longitude) of the centroid of its own geometry.  An invalid geometry
    makes the list of centroids shorter than the table, and the assignment
    of the column raises [ValueError]; a valid geometry without
    coordinates makes [get_centroid_coordinates] raise before that. *)
Theorem load_regions_all_or_nothing
  (is_valid : Geometry -> bool) (centroid : Geometry -> option Coord)
  (gdf : list BoundaryRow) :
  ((forall row, In row gdf ->
                is_valid (geometry row) = true
                /\ centroid (geometry row) <> None) ->
   exists regions,
     load_regions is_valid centroid gdf = Return regions
     /\ map boundary regions = gdf
     /\ map coordinates regions
        = map (fun row => convert_coordinates_format (geometry row)) gdf
     /\ map (fun region => Some (snd (centroid_coordinates region),
                                 fst (centroid_coordinates region)))
            regions
        = map (fun row => centroid (geometry row)) gdf)
  /\ ((forall row, In row gdf -> is_valid (geometry row) = true ->
                   centroid (geometry row) <> None) ->
      (exists row, In row gdf /\ is_valid (geometry row) = false) ->
      load_regions is_valid centroid gdf = Raise ValueError)
  /\ ((exists row, In row gdf
                   /\ is_valid (geometry row) = true
                   /\ centroid (geometry row) = None) ->
      load_regions is_valid centroid gdf = Raise GEOSException).
Proof.
  unfold load_regions, coordinates_column, get_centroid_coordinates.
  rewrite combine_map_fst.
  split; [ | split ].
  - intros Hall.
    destruct (centroids_loop_spec is_valid centroid gdf
                (fun row Hin _ => proj2 (Hall row Hin)) [])
      as (centroids & Hrun & Hmap).
    cbv zeta in Hmap. rewrite Hrun. cbn [app obind].
    assert (Hvalid : forallb (fun row => is_valid (geometry row)) gdf = true)
      by (apply forallb_forall; intros row Hin; apply (Hall row Hin)).
    rewrite (forallb_filter_id _ _ Hvalid) in Hmap.
    assert (Hlen : List.length centroids = List.length gdf).
    { apply (f_equal (@List.length _)) in Hmap.
      now rewrite !length_map in Hmap. }
    unfold set_column.
    rewrite length_combine, length_map, Nat.min_id, Hlen, Nat.eqb_refl.
    eexists. split; [ reflexivity | ].
    destruct (region_columns
                (fun row => convert_coordinates_format (geometry row))
                gdf centroids Hlen) as (Hb & Hc & Hcc).
    split; [ exact Hb | ]. split; [ exact Hc | ].
    rewrite <- Hmap.
    etransitivity;
      [ | apply (f_equal (map (fun c : Q * Q => Some (snd c, fst c))) Hcc) ].
    symmetry.
    exact (map_map centroid_coordinates
                   (fun c : Q * Q => Some (snd c, fst c)) _).
  - intros Hpoints (row & Hin & Hinvalid).
    destruct (centroids_loop_spec is_valid centroid gdf Hpoints [])
      as (centroids & Hrun & Hmap).
    cbv zeta in Hmap. rewrite Hrun. cbn [app obind].
    assert (Hlen : (List.length centroids < List.length gdf)%nat).
    { apply (f_equal (@List.length _)) in Hmap.
      rewrite !length_map in Hmap. rewrite Hmap.
      apply (filter_length_lt _ _ row Hin Hinvalid). }
    unfold set_column.
    rewrite length_combine, length_map, Nat.min_id.
    replace (_ =? _)%nat with false
      by (symmetry; apply Nat.eqb_neq; lia).
    reflexivity.
  - intros (row & Hin & Hvalid & Hempty).
    now rewrite (centroids_loop_some_empty_point is_valid centroid gdf row
                   Hin Hvalid Hempty).
Qed.

Lemma load_regions_all_or_nothing_witness :
  (exists regions,
      load_regions sample_is_valid sample_centroid
        [north_kordofan; river_nile]
      = Return regions
      /\ map boundary regions = [north_kordofan; river_nile])
  /\ load_regions sample_is_valid sample_centroid
       [north_kordofan; crossed_region]
     = Raise ValueError
  /\ load_regions sample_is_valid sample_centroid
       [north_kordofan; empty_region]
     = Raise GEOSException.
Proof.
  split; [ | split ].
  - assert (Hall : forall row,
               In row [north_kordofan; river_nile] ->
               sample_is_valid (geometry row) = true
               /\ sample_centroid (geometry row) <> None)
      by (intros row [<- | [<- | []]];
          (split; [ reflexivity | discriminate ])).
    destruct (proj1 (load_regions_all_or_nothing sample_is_valid
                       sample_centroid [north_kordofan; river_nile]) Hall)
      as (regions & Hrun & Hrows & _).
    exists regions. split; assumption.
  - apply (proj1 (proj2 (load_regions_all_or_nothing sample_is_valid
                           sample_centroid
                           [north_kordofan; crossed_region]))).
    + intros row [<- | [<- | []]] _; discriminate.
    + exists crossed_region. split; [ right; now left | reflexivity ].
  - apply (proj2 (proj2 (load_regions_all_or_nothing sample_is_valid
                           sample_centroid [north_kordofan; empty_region]))).
    exists empty_region. split; [ right; now left | ].
    split; reflexivity.
Defined.

(** X22.  When no request is answered with status 200 (each answer being
    a JSON object, the end date at most 9999-12-24), the weather table is
    built from no record and has no column: the second pass raises
    [KeyError] on ['data']. *)
Theorem second_pass_after_failed_fetch
  (API_KEY : string) (weather_api : WeatherParams -> Response)
  (gdf : list RegionRow) (start_date end_date : Date) (s e : Z)
  (log : list Event) :
  strptime start_date = Return s ->
  strptime end_date = Return e ->
  e + 7 <= MAXORDINAL ->
  (forall params,
      status_code (weather_api params) <> 200
      /\ exists fields, body (weather_api params) = Some (JObj fields)) ->
  fst (fetch_weather_for_geodataframe API_KEY weather_api gdf
         start_date end_date log)
  = Return []
  /\ obind (fst (fetch_weather_for_geodataframe API_KEY weather_api gdf
                   start_date end_date log))
           add_processed_columns
     = Raise KeyError.
Proof.
  intros Hs He Hmax Hfail.
  assert (Hans : forall params, answers (weather_api params) = true).
  { intros params. destruct (Hfail params) as [_ (fields & Hbody)].
    unfold answers. now rewrite Hbody. }
  rewrite (fetch_weather_run API_KEY weather_api Hans gdf _ _ s e log
             Hs He Hmax).
  cbn [fst].
  assert (Hnone : flat_map (region_records API_KEY weather_api
                              (sampled_dates s e)) gdf = []).
  { apply flat_map_all_nil. intros row. unfold region_records.
    apply flat_map_all_nil. intros d. unfold pair_records.
    destruct (Hfail (weather_request API_KEY (fst (centroid_coordinates row))
                       (snd (centroid_coordinates row)) "+02:00" d))
      as [Hstatus _].
    apply Z.eqb_neq in Hstatus. now rewrite Hstatus. }
  rewrite Hnone. split; reflexivity.
Qed.

Lemma second_pass_after_failed_fetch_witness :
  fst (fetch_weather_for_geodataframe "key" unauthorized [khartoum; kassala]
         (mkDate 2024 1 1) (mkDate 2024 12 31) [])
  = Return []
  /\ obind (fst (fetch_weather_for_geodataframe "key" unauthorized
                   [khartoum; kassala] (mkDate 2024 1 1) (mkDate 2024 12 31)
                   []))
           add_processed_columns
     = Raise KeyError.
Proof.
  assert (Hmax : 739251 + 7 <= MAXORDINAL) by (vm_compute; discriminate).
  assert (Hfail : forall params,
             status_code (unauthorized params) <> 200
             /\ exists fields, body (unauthorized params) = Some (JObj fields))
    by (intros params; split; [ discriminate | eexists; reflexivity ]).
  exact (second_pass_after_failed_fetch "key" unauthorized [khartoum; kassala]
           (mkDate 2024 1 1) (mkDate 2024 12 31) 738886 739251 []
           eq_refl eq_refl Hmax Hfail).
Defined.

(** ** More on the merge *)

Lemma map_fst_joined {L R} (l : L) (matches : list R) :
  map fst (map (fun r => (l, Some r)) matches)
  = repeat l (List.length matches).
Proof.
  induction matches as [| r matches IH]; simpl; [ reflexivity | ].
  now rewrite IH.
Qed.

Lemma merge_left_row_order {L R} (key_eqb : L -> R -> bool)
  (left : list L) (right : list R) :
  map fst (merge_left key_eqb left right)
  = flat_map (fun l =>
                repeat l (Nat.max 1 (List.length (filter (key_eqb l) right))))
             left
  /\ (List.length left <= List.length (merge_left key_eqb left right))%nat.
Proof.
  unfold merge_left.
  induction left as [| l left [IHmap IHlen]]; [ simpl; auto | ].
  cbn [flat_map]. rewrite map_app, length_app, IHmap.
  destruct (filter (key_eqb l) right) as [| r rs] eqn:Hf.
  - simpl in *. split; [ reflexivity | lia ].
  - rewrite map_fst_joined, length_map. simpl in *.
    split; [ reflexivity | lia ].
Qed.

(** X23.  When both tables have a row, the merged table keeps the boundary
    rows in their order: each boundary row appears once per weather row at
    its coordinate, and once when there is none.  So the merged table is
    not shorter than the boundary table. *)
Theorem merged_df_row_order (gdf : list RegionRow)
  (weather_df : list WeatherRecord) :
  gdf <> [] ->
  weather_df <> [] ->
  exists merged,
    merged_df gdf weather_df = Return merged
    /\ map fst merged
       = flat_map (fun row =>
                     repeat row
                       (Nat.max 1 (List.length
                                     (filter (same_coordinate row)
                                             weather_df))))
                  gdf
    /\ (List.length gdf <= List.length merged)%nat.
Proof.
  intros Hgdf Hweather.
  exists (merge_left same_coordinate gdf weather_df).
  split; [ now apply merged_df_tables | ].
  apply merge_left_row_order.
Qed.

Lemma merged_df_row_order_witness :
  exists merged,
    merged_df [khartoum; kassala] [khartoum_week_1; khartoum_week_1]
    = Return merged
    /\ map fst merged = [khartoum; khartoum; kassala].
Proof.
  assert (Hgdf : [khartoum; kassala] <> []) by discriminate.
  assert (Hweather : [khartoum_week_1; khartoum_week_1] <> [])
    by discriminate.
  destruct (merged_df_row_order [khartoum; kassala]
              [khartoum_week_1; khartoum_week_1] Hgdf Hweather)
    as (merged & Hrun & Horder & _).
  exists merged. split; [ exact Hrun | ]. rewrite Horder. reflexivity.
Defined.

(** ** The passes together *)

Section Pipeline.

Variable API_KEY : string.
Variable weather_api : WeatherParams -> Response.

Hypothesis weather_api_ok :
  forall params, status_code (weather_api params) = 200
                 /\ body (weather_api params) <> None.

Lemma weather_api_ok_answers :
  forall params, answers (weather_api params) = true.
Proof.
  intros params. destruct (weather_api_ok params) as [Hstatus Hbody].
  unfold answers. rewrite Hstatus.
  destruct (body (weather_api params)) as [j |];
    [ destruct j; reflexivity | congruence ].
Qed.

Lemma pair_records_ok (lat lon : Q) (tz : string) (d : Z) :
  pair_records API_KEY weather_api lat lon tz d
  = [mkWeatherRecord lat lon tz (strftime d)
       (payload (weather_api (weather_request API_KEY lat lon tz d)))].
Proof.
  unfold pair_records, payload.
  destruct (weather_api_ok (weather_request API_KEY lat lon tz d))
    as [Hstatus Hbody].
  rewrite Hstatus.
  destruct (body (weather_api _)); [ reflexivity | congruence ].
Qed.

Lemma region_records_ok (dates : list Z) (row : RegionRow) :
  region_records API_KEY weather_api dates row
  = map (fun d =>
           mkWeatherRecord (fst (centroid_coordinates row))
             (snd (centroid_coordinates row)) "+02:00" (strftime d)
             (payload (weather_api
                         (weather_request API_KEY
                            (fst (centroid_coordinates row))
                            (snd (centroid_coordinates row)) "+02:00" d))))
        dates.
Proof.
  unfold region_records.
  induction dates as [| d dates IH]; cbn [flat_map map]; [ reflexivity | ].
  now rewrite IH, pair_records_ok.
Qed.

End Pipeline.

Lemma same_coordinate_own_record (row : RegionRow) (tz : string) (d : Date)
  (j : JSON) :
  same_coordinate row
    (mkWeatherRecord (fst (centroid_coordinates row))
                     (snd (centroid_coordinates row)) tz d j)
  = true.
Proof.
  unfold same_coordinate. simpl.
  apply andb_true_iff. split; apply Qeq_bool_iff; reflexivity.
Qed.

(** X24.  After a fetch in which every request was answered with status
    200 and JSON, over a range that holds at least the start date and ends
    by 9999-12-24, the
    merge leaves no region without weather: it returns a table in which
    every row of the boundary table is joined to a weather row of its own
    centroid, and none appears with empty weather fields. *)
Theorem merge_after_fetch_joins_every_region
  (API_KEY : string) (weather_api : WeatherParams -> Response)
  (gdf : list RegionRow) (start_date end_date : Date) (s e : Z)
  (log : list Event) :
  strptime start_date = Return s ->
  strptime end_date = Return e ->
  s <= e ->
  e + 7 <= MAXORDINAL ->
  (forall params, status_code (weather_api params) = 200
                  /\ body (weather_api params) <> None) ->
  exists weather_df,
    fst (fetch_weather_for_geodataframe API_KEY weather_api gdf
           start_date end_date log)
    = Return weather_df
    /\ forall row,
         In row gdf ->
         exists merged,
           merged_df gdf weather_df = Return merged
           /\ ~ In (row, None) merged
           /\ exists weather,
                In (row, Some weather) merged
                /\ latitude weather = fst (centroid_coordinates row)
                /\ longitude weather = snd (centroid_coordinates row)
                /\ date weather = strftime s.
Proof.
  intros Hs He Hle Hmax Hok.
  rewrite (fetch_weather_run API_KEY weather_api
             (weather_api_ok_answers weather_api Hok) gdf _ _ s e log
             Hs He Hmax).
  eexists. split; [ reflexivity | ].
  intros row Hrow.
  set (own := mkWeatherRecord (fst (centroid_coordinates row))
                (snd (centroid_coordinates row)) "+02:00" (strftime s)
                (payload (weather_api
                            (weather_request API_KEY
                               (fst (centroid_coordinates row))
                               (snd (centroid_coordinates row)) "+02:00" s)))).
  assert (Hown : In own (flat_map (region_records API_KEY weather_api
                                     (sampled_dates s e)) gdf)).
  { apply in_flat_map. exists row. split; [ exact Hrow | ].
    rewrite (region_records_ok API_KEY weather_api Hok),
      (sampled_dates_cons _ _ Hle).
    now left. }
  assert (Hkey : same_coordinate row own = true)
    by apply same_coordinate_own_record.
  eexists. split.
  - apply merged_df_tables.
    + intros ->. destruct Hrow.
    + intros Hnil. rewrite Hnil in Hown. destruct Hown.
  - split.
    + intros Hnone.
      apply merge_left_sound in Hnone as [_ Hnone].
      specialize (Hnone own Hown). congruence.
    + exists own. split; [ | repeat split ].
      now apply merge_left_matched.
Qed.

Lemma merge_after_fetch_joins_every_region_witness :
  exists weather_df merged,
    fst (fetch_weather_for_geodataframe "key" example_api [khartoum; kassala]
           (mkDate 2024 1 1) (mkDate 2024 1 31) [])
    = Return weather_df
    /\ merged_df [khartoum; kassala] weather_df = Return merged
    /\ ~ In (kassala, None) merged.
Proof.
  assert (Hmax : 738916 + 7 <= MAXORDINAL) by (vm_compute; discriminate).
  assert (Hok : forall params, status_code (example_api params) = 200
                               /\ body (example_api params) <> None)
    by (intros params; split; [ reflexivity | discriminate ]).
  assert (Hle : 738886 <= 738916) by lia.
  destruct (merge_after_fetch_joins_every_region "key" example_api
              [khartoum; kassala] (mkDate 2024 1 1) (mkDate 2024 1 31)
              738886 738916 [] eq_refl eq_refl Hle Hmax Hok)
    as (weather_df & Hrun & Hjoined).
  assert (Hkassala : In kassala [khartoum; kassala]) by (right; now left).
  destruct (Hjoined kassala Hkassala) as (merged & Hmerged & Hnone & _).
  exists weather_df, merged. auto.
Defined.

(** X25.  When every request is answered with status 200 and a payload
    that [process_weather_data] reads (end date at most 9999-12-24), fetch
    and second pass together
    succeed: the second pass returns the fetched table row by row, one row
    of named fields per region and sampled date.  This needs at least one
    region and one date; with none the second pass finds no [data]
    column. *)
Theorem second_pass_after_fetch
  (API_KEY : string) (weather_api : WeatherParams -> Response)
  (gdf : list RegionRow) (start_date end_date : Date) (s e : Z)
  (log : list Event) :
  strptime start_date = Return s ->
  strptime end_date = Return e ->
  s <= e ->
  e + 7 <= MAXORDINAL ->
  gdf <> [] ->
  (forall params,
      status_code (weather_api params) = 200
      /\ exists data fields,
           body (weather_api params) = Some data
           /\ process_weather_data data = Return fields) ->
  exists weather_df table,
    fst (fetch_weather_for_geodataframe API_KEY weather_api gdf
           start_date end_date log)
    = Return weather_df
    /\ add_processed_columns weather_df = Return table
    /\ map fst table = weather_df
    /\ (forall record fields,
           In (record, fields) table ->
           process_weather_data (data record) = Return fields)
    /\ List.length table
       = (List.length gdf * List.length (sampled_dates s e))%nat.
Proof.
  intros Hs He Hle Hmax Hrows Hreadable.
  assert (Hok : forall params, status_code (weather_api params) = 200
                               /\ body (weather_api params) <> None).
  { intros params.
    destruct (Hreadable params) as (Hstatus & data & fields & Hbody & _).
    split; [ exact Hstatus | congruence ]. }
  rewrite (fetch_weather_run API_KEY weather_api
             (weather_api_ok_answers weather_api Hok) gdf _ _ s e log
             Hs He Hmax).
  cbn [fst].
  set (weather_df := flat_map (region_records API_KEY weather_api
                                 (sampled_dates s e)) gdf).
  set (read := fun record : WeatherRecord =>
                 match process_weather_data (data record) with
                 | Return fields => fields
                 | Raise _ => example_fields
                 end).
  assert (Hread : forall record,
             In record weather_df ->
             process_weather_data (data record) = Return (read record)).
  { intros record Hin. subst weather_df read.
    apply in_flat_map in Hin as (row & _ & Hin).
    rewrite (region_records_ok API_KEY weather_api Hok) in Hin.
    apply in_map_iff in Hin as (d & <- & _). cbn [data]. unfold payload.
    destruct (Hreadable (weather_request API_KEY
                           (fst (centroid_coordinates row))
                           (snd (centroid_coordinates row)) "+02:00" d))
      as (_ & data & fields & Hbody & Hfields).
    rewrite Hbody. now rewrite Hfields. }
  assert (Hlen : List.length weather_df
                 = (List.length gdf * List.length (sampled_dates s e))%nat).
  { subst weather_df. apply flat_map_constant_length. intros row _.
    rewrite (region_records_ok API_KEY weather_api Hok). apply length_map. }
  assert (Hcolumn : data_column weather_df = Return (map data weather_df)).
  { destruct weather_df as [| record rest] eqn:Hdf; [ | reflexivity ].
    simpl in Hlen. rewrite (sampled_dates_cons _ _ Hle) in Hlen.
    destruct gdf; [ congruence | simpl in Hlen; lia ]. }
  exists weather_df, (combine weather_df (map read weather_df)).
  split; [ reflexivity | ]. split; [ | split; [ | split ] ].
  - unfold add_processed_columns. rewrite Hcolumn. cbn [obind].
    now rewrite (apply_process_weather_data_all weather_df read Hread).
  - apply combine_map_fst.
  - intros record fields Hin.
    assert (Hrecord : In record weather_df) by (now apply in_combine_l in Hin).
    clear - Hin Hread. revert Hin Hread.
    induction weather_df as [| r weather_df IH]; simpl; [ tauto | ].
    intros [Heq | Hin] Hread.
    + inversion Heq; subst. apply Hread. now left.
    + apply IH; [ exact Hin | intros r' Hr'; apply Hread; now right ].
  - now rewrite length_combine, length_map, Nat.min_id.
Qed.

Lemma second_pass_after_fetch_witness :
  exists weather_df table,
    fst (fetch_weather_for_geodataframe "key" example_api [khartoum; kassala]
           (mkDate 2024 1 1) (mkDate 2024 1 31) [])
    = Return weather_df
    /\ add_processed_columns weather_df = Return table
    /\ List.length table = 10%nat.
Proof.
  assert (Hmax : 738916 + 7 <= MAXORDINAL) by (vm_compute; discriminate).
  assert (Hle : 738886 <= 738916) by lia.
  assert (Hrows : [khartoum; kassala] <> []) by discriminate.
  assert (Hreadable :
            forall params,
              status_code (example_api params) = 200
              /\ exists data fields,
                   body (example_api params) = Some data
                   /\ process_weather_data data = Return fields).
  { intros params. split; [ reflexivity | ].
    exists (day_summary example_others example_fields), example_fields.
    split; reflexivity. }
  destruct (second_pass_after_fetch "key" example_api [khartoum; kassala]
              (mkDate 2024 1 1) (mkDate 2024 1 31) 738886 738916 []
              eq_refl eq_refl Hle Hmax Hrows Hreadable)
    as (weather_df & table & Hrun & Htable & _ & _ & Hlen).
  exists weather_df, table. split; [ exact Hrun | ].
  split; [ exact Htable | ]. rewrite Hlen. reflexivity.
Defined.

(** ** What the conversion keeps *)

Lemma coords_list_inj (cs ds : list Coord) :
  coords_list cs = coords_list ds -> cs = ds.
Proof.
  unfold coords_list. intros Heq. injection Heq as Heq. revert ds Heq.
  induction cs as [| [x y] cs IH]; intros [| [x' y'] ds] Heq;
    simpl in Heq; try discriminate; [ reflexivity | ].
  injection Heq as -> -> Heq. f_equal. now apply IH.
Qed.

Lemma map_coords_list_inj (ps qs : list polygon) :
  map (fun p => coords_list (exterior p)) ps
  = map (fun p => coords_list (exterior p)) qs ->
  map exterior ps = map exterior qs.
Proof.
  revert qs.
  induction ps as [| p ps IH]; intros [| q qs] Heq; simpl in Heq;
    try discriminate; [ reflexivity | ].
  assert (Hp : coords_list (exterior p) = coords_list (exterior q))
    by congruence.
  assert (Hrest : map (fun p => coords_list (exterior p)) ps
                  = map (fun p => coords_list (exterior p)) qs)
    by congruence.
  simpl. now rewrite (coords_list_inj _ _ Hp), (IH qs Hrest).
Qed.

(** X26.  [convert_coordinates_format] keeps the exterior rings and
    nothing else: two polygons are converted to the same value exactly
    when their exterior rings are the same, whatever their holes, and two
    multi-polygons exactly when their polygons have the same exterior
    rings in the same order.  A polygon and a multi-polygon are converted
    to the same value only when both are empty. *)
Theorem convert_coordinates_format_exteriors_only
  (p q : polygon) (ps qs : list polygon) :
  (convert_coordinates_format (Polygon p)
   = convert_coordinates_format (Polygon q)
   <-> exterior p = exterior q)
  /\ (convert_coordinates_format (MultiPolygon ps)
      = convert_coordinates_format (MultiPolygon qs)
      <-> map exterior ps = map exterior qs)
  /\ (convert_coordinates_format (Polygon p)
      = convert_coordinates_format (MultiPolygon ps)
      <-> exterior p = [] /\ ps = []).
Proof.
  rewrite !convert_polygon, !convert_multipolygon.
  split; [ | split ]; split.
  - intros Heq. apply coords_list_inj. congruence.
  - now intros ->.
  - intros Heq. apply map_coords_list_inj. congruence.
  - intros Heq. f_equal. f_equal. f_equal.
    rewrite <- (map_map exterior coords_list ps),
      <- (map_map exterior coords_list qs).
    now rewrite Heq.
  - unfold coords_list. intros Heq. injection Heq as Heq.
    destruct (exterior p) as [| c cs], ps as [| p' ps];
      simpl in Heq; try discriminate.
    now split.
  - intros [-> ->]. reflexivity.
Qed.
